(** * Search-term parser and filter engine of the Netflix data explorer

    A shallow embedding of [parse_search_terms] and [apply_search_filters]
    from [streamlit_app.py], and the properties of the query tokenizer and
    of the filter engine stated over it; then the data page, the text of
    the word cloud and the chart of the releases.

    Python strings are modelled as lists of characters; a character is a
    code point in the range U+0000..U+00FF (Rocq's [ascii], read as
    Latin-1).  A data frame is an ordered list of column labels together
    with an ordered list of rows.  The release of pandas and the library
    that searches a pattern are parameters of the model. *)

From Stdlib Require Import Ascii String ZArith DecimalString.
From stdpp Require Import base list strings.

Local Open Scope list_scope.

(** ** Python strings *)

Abbreviation str := (list ascii).

(** A string literal as a Python string. *)
Abbreviation py s := (list_ascii_of_string s).

Module PyStr.

(** [c.isspace()] on U+0000..U+00FF: TAB..CR, FS..US, SPACE, NEL, NBSP. *)
Definition isspace (c : ascii) : bool :=
  let n := N_of_ascii c in
  ((9 <=? n) && (n <=? 13) || (28 <=? n) && (n <=? 32)
   || (n =? 133) || (n =? 160))%N.

(** [c.lower()] on U+0000..U+00FF: A..Z and the Latin-1 capitals
    U+00C0..U+00DE (the multiplication sign U+00D7 apart). *)
Definition lower_char (c : ascii) : ascii :=
  let n := N_of_ascii c in
  if ((65 <=? n) && (n <=? 90)
      || (192 <=? n) && (n <=? 222) && negb (n =? 215))%N
  then ascii_of_N (n + 32) else c.

Definition lower (s : str) : str := map lower_char s.

Fixpoint lstrip (s : str) : str :=
  match s with
  | c :: s' => if isspace c then lstrip s' else s
  | [] => []
  end.

Definition rstrip (s : str) : str := rev (lstrip (rev s)).

(** [s.strip()] *)
Definition strip (s : str) : str := rstrip (lstrip s).

(** [c in s] for a one-character [c]. *)
Definition contains_char (c : ascii) (s : str) : bool :=
  existsb (Ascii.eqb c) s.

(** [s.split(c, 1)] for an [s] that contains [c]: the parts before and
    after the first [c].  Without a [c] the whole string is the first
    part. *)
Fixpoint split_first (c : ascii) (s : str) : str * str :=
  match s with
  | [] => ([], [])
  | x :: s' =>
      if Ascii.eqb x c then ([], s')
      else let '(a, b) := split_first c s' in (x :: a, b)
  end.

(** Truth value of a string: non-empty. *)
Definition truthy (s : str) : bool :=
  match s with [] => false | _ => true end.

Fixpoint is_prefix_by (eqc : ascii -> ascii -> bool) (p s : str) : bool :=
  match p, s with
  | [], _ => true
  | _ :: _, [] => false
  | a :: p', b :: s' => eqc a b && is_prefix_by eqc p' s'
  end.

(** [p] occurs in [s] at some position, characters compared by [eqc]. *)
Fixpoint occurs_by (eqc : ascii -> ascii -> bool) (p s : str) : bool :=
  is_prefix_by eqc p s ||
  match s with
  | [] => false
  | _ :: s' => occurs_by eqc p s'
  end.

(** Case-insensitive literal substring test. *)
Definition eq_nocase (a b : ascii) : bool :=
  Ascii.eqb (lower_char a) (lower_char b).

Definition substring_nocase (p s : str) : bool := occurs_by eq_nocase p s.

End PyStr.

(** ** The query tokenizer: [parse_search_terms] *)

Definition quote_char : ascii := "034"%char.
Definition space_char : ascii := " "%char.
Definition colon_char : ascii := ":"%char.

(** The locals of the first loop: [terms], [current_term], [in_quotes]. *)
Record scan_state := ScanState {
  scan_terms : list str;
  current_term : str;
  in_quotes : bool
}.

Definition scan_init : scan_state := ScanState [] [] false.

(** One iteration of [for i in range(len(search_input))] on the character
    [search_input[i]]. *)
Definition scan_step (st : scan_state) (c : ascii) : scan_state :=
  if Ascii.eqb c quote_char then
    let q := negb (in_quotes st) in
    if negb q && PyStr.truthy (current_term st)
    then ScanState (scan_terms st ++ [current_term st]) [] q
    else ScanState (scan_terms st) (current_term st) q
  else if Ascii.eqb c space_char && negb (in_quotes st) then
    if PyStr.truthy (current_term st)
    then ScanState (scan_terms st ++ [current_term st]) [] (in_quotes st)
    else st
  else ScanState (scan_terms st) (current_term st ++ [c]) (in_quotes st).

(** After the loop: [if current_term: terms.append(''.join(current_term))]. *)
Definition scan_finish (st : scan_state) : list str :=
  if PyStr.truthy (current_term st)
  then scan_terms st ++ [current_term st]
  else scan_terms st.

Definition scan_from (st : scan_state) (s : str) : scan_state :=
  fold_left scan_step s st.

(** Lines 18-36: the tokens of a query string. *)
Definition split_terms (search_input : str) : list str :=
  scan_finish (scan_from scan_init search_input).

(** A Python [dict] with string keys: insertion-ordered, [d[k] = v] replaces
    the value of a present key in place and appends a new key at the end. *)
Abbreviation dict := (list (str * str)).

Fixpoint dict_set (d : dict) (k v : str) : dict :=
  match d with
  | [] => [(k, v)]
  | (k', v') :: d' =>
      if decide (k' = k) then (k, v) :: d' else (k', v') :: dict_set d' k v
  end.

(** The locals of the second loop: [final_terms], [column_searches]. *)
Record parse_state := ParseState {
  final_terms : list str;
  column_searches : dict
}.

Definition parse_init : parse_state := ParseState [] [].

(** The body of [for i in range(len(terms))] at index [i].  It returns the
    value of the local [i] at the end of the body next to the new state:
    the body does run [i += 1] after it has taken [terms[i + 1]] as the
    value. *)
Definition classify_body (terms : list str) (i : nat) (st : parse_state)
  : nat * parse_state :=
  let term := nth i terms [] in
  if PyStr.contains_char colon_char term then
    let col := PyStr.lower (PyStr.strip (fst (PyStr.split_first colon_char term))) in
    let value := snd (PyStr.split_first colon_char term) in
    let '(value, i) :=
      if negb (PyStr.truthy (PyStr.strip value)) then
        if i + 1 <? length terms then (nth (i + 1) terms [], i + 1)
        else (value, i)
      else (value, i) in
    (i, ParseState (final_terms st)
                   (dict_set (column_searches st) col (PyStr.strip value)))
  else
    (i, ParseState (final_terms st ++ [term]) (column_searches st)).

(** [for i in range(len(terms)): body]: the next index comes from the
    range, whatever the body left in [i]. *)
Definition classify_loop (terms : list str) : parse_state :=
  fold_left (fun st i => snd (classify_body terms i st))
            (seq 0 (length terms)) parse_init.

Definition parse_search_terms (search_input : str) : list str * dict :=
  let st := classify_loop (split_terms search_input) in
  (final_terms st, column_searches st).

(** ** Outcomes of a call *)

(** The exceptions a call can end in.  [OutsideFragment] is not a Python
    exception: it marks a pattern that the model of the regular-expression
    library below does not cover, and about which nothing is claimed. *)
Inductive fault := ReError | AttributeError | TypeError | OutsideFragment.

Inductive result (A : Type) : Type :=
| Ok (a : A)
| Raise (e : fault).
Arguments Ok {A} a.
Arguments Raise {A} e.

Definition bind {A B} (r : result A) (k : A -> result B) : result B :=
  match r with
  | Ok a => k a
  | Raise e => Raise e
  end.

Notation "'try' x <- r 'in' k" := (bind r (fun x => k))
  (at level 10, x name, r at level 100, k at level 200).

(** ** The regular-expression library

    [Series.str.contains(pat, case=False)] compiles [pat] as a regular
    expression with [re.IGNORECASE] and keeps the elements in which
    [search] finds a match.  The engine is an interface: [re_compile] may
    raise, [re_search] is a total test.  On a column of Python strings
    the engine is Python's [re], modelled further down. *)
Class RegexEngine := {
  pattern : Type;
  re_compile : str -> result pattern;
  re_search : pattern -> str -> bool
}.

(** ** The release of pandas

    The code does not say which pandas it runs on, and one behaviour that
    it relies on differs between the releases: what [astype(str)] makes of
    a missing value.  Up to pandas 2 the result is a column of Python
    objects, each the [str()] of the value, and a missing value becomes
    the three letters [nan].  From pandas 3 on the result is a column of
    the string dtype in which a missing value stays missing:
    [str.contains] is false on it, and it comes out as a float when the
    column is iterated. *)
Inductive pandas := Pandas2 | Pandas3.
Existing Class pandas.

(** ** Data frames *)

(** A value of a column.  A float that is a number is carried by the
    text that [str()] gives for it, since the code reads values through
    [astype(str)] only; the float that is not a number is the missing
    value [VNaN].  A numeric column that has a missing value holds
    floats, so that the year 1994 is [VFloat "1994.0"] there. *)
Inductive cell :=
| VStr (s : str)      (* a string *)
| VInt (z : Z)        (* an integer *)
| VFloat (repr : str) (* a float that is a number, by its text *)
| VNaN.               (* a missing value, as [read_csv] loads it *)

(** [astype(str)] on one value; [None] is a value that stays missing. *)
Definition astype_str `{V : pandas} (v : cell) : option str :=
  match v with
  | VStr s => Some s
  | VInt z => Some (py (NilZero.string_of_int (Z.to_int z)))
  | VFloat repr => Some repr
  | VNaN => match V with Pandas2 => Some (py "nan") | Pandas3 => None end
  end.

(** The value is a string after [astype(str)]. *)
Definition has_text `{V : pandas} (v : cell) : bool :=
  match astype_str v with
  | Some _ => true
  | None => false
  end.

(** Column labels in order and rows in order; the cell of a row under the
    [j]-th label is its [j]-th element. *)
Record frame := Frame {
  columns : list str;
  rows : list (list cell)
}.

(** The cell under the [j]-th label; a row too short to have one reads as
    missing there. *)
Definition cell_at (j : nat) (r : list cell) : cell := nth j r VNaN.

Fixpoint label_index (name : str) (labels : list str) : nat :=
  match labels with
  | [] => 0
  | l :: labels' => if decide (l = name) then 0 else S (label_index name labels')
  end.

Definition count_label (name : str) (labels : list str) : nat :=
  length (List.filter (fun l => bool_decide (l = name)) labels).

(** [df[name].astype(str).str] for a label [name] of [df]: the column as
    strings.  A label that occurs more than once selects a DataFrame, which
    has no [.str] accessor. *)
Definition column_str `{V : pandas} (df : frame) (name : str)
  : result (list (option str)) :=
  if 1 <? count_label name (columns df) then Raise AttributeError
  else Ok (map (fun r => astype_str (cell_at (label_index name (columns df)) r))
               (rows df)).

(** [df[mask]] for a boolean mask aligned with the rows. *)
Definition boolean_index (df : frame) (mask : list bool) : frame :=
  Frame (columns df) (map fst (List.filter snd (combine (rows df) mask))).

(** The test of [str.contains] on one element of a column of strings:
    a missing element holds no match. *)
Definition search_in `{E : RegexEngine} (p : pattern) (x : option str) : bool :=
  match x with
  | Some s => re_search p s
  | None => false
  end.

(** [series.str.contains(pat, case=False)] *)
Definition str_contains `{E : RegexEngine} (series : list (option str))
    (pat : str) : result (list bool) :=
  try p <- re_compile pat in
  Ok (map (search_in p) series).

(** At least one axis has length zero. *)
Definition frame_is_empty (df : frame) : bool :=
  match rows df, columns df with
  | [], _ | _, [] => true
  | _, _ => false
  end.

(** Some column of the row, as a string, has a match. *)
Definition row_any `{E : RegexEngine} `{V : pandas} (p : pattern) (ncols : nat)
    (r : list cell) : bool :=
  existsb (fun j => search_in p (astype_str (cell_at j r))) (seq 0 ncols).

(** ** The filter engine: [apply_search_filters] *)

(** The mask computed in the body of
    [for col, value in column_searches.items()]; [None] when no column
    matches and [filtered_data] is left as it is. *)
Definition column_filter_mask `{E : RegexEngine} `{V : pandas} (df : frame)
    (kv : str * str) : result (option (list bool)) :=
  let '(col, value) := kv in
  let matching_cols :=
    List.filter (fun c => bool_decide (PyStr.lower c = PyStr.lower col))
                (columns df) in
  match matching_cols with
  | [] => Ok None
  | c0 :: _ =>
      try series <- column_str df c0 in
      try mask <- str_contains series value in
      Ok (Some mask)
  end.

(** The mask computed in the body of [for term in terms]; [None] for an
    empty term.  [DataFrame.apply] does not run the lambda on a frame with
    an axis of length zero (it probes it on an empty float Series and
    discards the exception); [any(axis=1)] is then false on every row. *)
Definition term_filter_mask `{E : RegexEngine} `{V : pandas} (df : frame)
    (term : str) : result (option (list bool)) :=
  if PyStr.truthy term then
    if frame_is_empty df
    then Ok (Some (map (fun _ => false) (rows df)))
    else
      try p <- re_compile term in
      Ok (Some (map (row_any p (length (columns df))) (rows df)))
  else Ok None.

(** [filtered_data = filtered_data[mask]], when a mask was computed. *)
Definition reindex (df : frame) (mask : option (list bool)) : frame :=
  match mask with
  | Some m => boolean_index df m
  | None => df
  end.

Definition column_filter_step `{E : RegexEngine} `{V : pandas} (df : frame)
    (kv : str * str) : result frame :=
  try mask <- column_filter_mask df kv in Ok (reindex df mask).

Definition term_filter_step `{E : RegexEngine} `{V : pandas} (df : frame)
    (term : str) : result frame :=
  try mask <- term_filter_mask df term in Ok (reindex df mask).

(** A [for] loop whose body may raise. *)
Fixpoint for_each {A S} (body : S -> A -> result S) (l : list A) (s : S)
  : result S :=
  match l with
  | [] => Ok s
  | a :: l' => try s' <- body s a in for_each body l' s'
  end.

(** Lines 63-81: the two loops over the parsed query. *)
Definition apply_parsed `{E : RegexEngine} `{V : pandas} (data : frame)
    (terms : list str) (column_searches : dict) : result frame :=
  try filtered_data <- for_each column_filter_step column_searches data in
  for_each term_filter_step terms filtered_data.

(** [apply_search_filters(data, search_input, data_filters)]; the third
    parameter is not used by the function. *)
Definition apply_search_filters `{E : RegexEngine} `{V : pandas}
    (data : frame) (search_input : str) : result frame :=
  if negb (PyStr.truthy (PyStr.strip search_input)) then Ok data
  else
    let '(terms, column_searches) := parse_search_terms search_input in
    apply_parsed data terms column_searches.

(** ** The same function over a store of frame objects

    Frames are objects: [data] is a reference, [data.copy()] and
    [filtered_data[mask]] each build a new object, and [filtered_data] is
    rebound to it.  A store is the list of the objects allocated so far; a
    reference is a position in it. *)
Module Store.

Abbreviation heap := (list frame).

Definition deref (h : heap) (l : nat) : frame := nth l h (Frame [] []).

Definition alloc (h : heap) (f : frame) : heap * nat := (h ++ [f], length h).

(** [filtered_data = filtered_data[mask]] on references. *)
Definition rebind (h : heap) (l : nat) (mask : result (option (list bool)))
  : heap * result nat :=
  match mask with
  | Raise e => (h, Raise e)
  | Ok None => (h, Ok l)
  | Ok (Some m) =>
      let '(h', l') := alloc h (boolean_index (deref h l) m) in (h', Ok l')
  end.

Fixpoint for_each_ref {A} (mask_of : frame -> A -> result (option (list bool)))
    (l : list A) (h : heap) (cur : nat) : heap * result nat :=
  match l with
  | [] => (h, Ok cur)
  | a :: l' =>
      match rebind h cur (mask_of (deref h cur) a) with
      | (h', Ok cur') => for_each_ref mask_of l' h' cur'
      | (h', Raise e) => (h', Raise e)
      end
  end.

Definition apply_search_filters_ref `{E : RegexEngine} `{V : pandas} (h : heap)
    (data : nat) (search_input : str) : heap * result nat :=
  if negb (PyStr.truthy (PyStr.strip search_input)) then (h, Ok data)
  else
    let '(terms, column_searches) := parse_search_terms search_input in
    let '(h0, filtered_data) := alloc h (deref h data) in
    match for_each_ref column_filter_mask column_searches h0 filtered_data with
    | (h1, Ok filtered_data) =>
        for_each_ref term_filter_mask terms h1 filtered_data
    | (h1, Raise e) => (h1, Raise e)
    end.

End Store.

(** ** A model of Python's [re] on a fragment of its pattern syntax

    The special characters of [re] are [. ^ $ * + ? { } [ ] \ | ( )]; every
    other character matches itself.  The fragment covers the patterns made
    of ordinary characters, the wildcard [.] and the opening parenthesis
    [(]: a [(] opens a group, and as no [)] can follow in the fragment the
    pattern does not compile.  Patterns with any other special character
    are reported as [OutsideFragment].  Matching is with [re.IGNORECASE]
    and without [re.DOTALL]. *)
Module PyRe.

Definition is_special (c : ascii) : bool :=
  existsb (Ascii.eqb c) (py ".^$*+?{}[]\|()").

Definition dot_char : ascii := "."%char.
Definition lparen_char : ascii := "("%char.
Definition newline_char : ascii := "010"%char.

Definition covered (c : ascii) : bool :=
  negb (is_special c) || Ascii.eqb c dot_char || Ascii.eqb c lparen_char.

Inductive atom :=
| Lit (c : ascii)    (* an ordinary character *)
| AnyChar.           (* [.]: any character except a newline *)

Definition atom_of (c : ascii) : atom :=
  if Ascii.eqb c dot_char then AnyChar else Lit c.

(** [re.compile(pat, re.IGNORECASE)] *)
Definition compile (pat : str) : result (list atom) :=
  if negb (forallb covered pat) then Raise OutsideFragment
  else if PyStr.contains_char lparen_char pat then Raise ReError
  else Ok (map atom_of pat).

Definition atom_match (a : atom) (x : ascii) : bool :=
  match a with
  | Lit c => PyStr.eq_nocase c x
  | AnyChar => negb (Ascii.eqb x newline_char)
  end.

(** The atoms match a prefix of [s]. *)
Fixpoint match_here (p : list atom) (s : str) : bool :=
  match p, s with
  | [], _ => true
  | _ :: _, [] => false
  | a :: p', x :: s' => atom_match a x && match_here p' s'
  end.

(** [p.search(s) is not None] *)
Fixpoint search (p : list atom) (s : str) : bool :=
  match_here p s ||
  match s with
  | [] => false
  | _ :: s' => search p s'
  end.

End PyRe.

#[export] Instance py_re : RegexEngine := {|
  pattern := list PyRe.atom;
  re_compile := PyRe.compile;
  re_search := PyRe.search
|}.

(** ** Predicates used in the statements *)


(** The token holds no colon. *)
Definition no_colon (t : str) : bool := negb (PyStr.contains_char colon_char t).

(** [df2] has the columns of [df1] and only rows of [df1]. *)
Definition below (df2 df1 : frame) : Prop :=
  columns df2 = columns df1 ∧ rows df2 ⊆ rows df1.

(** ** The matching semantics in the words of the specification *)

(** No special character of [re] occurs in the string. *)
Definition ordinary (s : str) : bool :=
  forallb (λ c, negb (PyRe.is_special c)) s.

(** The position of the first column whose label equals [col], case
    apart. *)
Fixpoint find_column (col : str) (labels : list str) : option nat :=
  match labels with
  | [] => None
  | l :: labels' =>
      if bool_decide (PyStr.lower l = PyStr.lower col) then Some 0
      else S <$> find_column col labels'
  end.

(** The string representation of a value contains [p] as a
    case-insensitive literal substring; a value that has no string
    representation contains nothing. *)
Definition contains_nocase (p : str) (x : option str) : bool :=
  match x with
  | Some s => PyStr.substring_nocase p s
  | None => false
  end.

(** A row survives a column filter iff its value in the matched column,
    as a string, contains the value as a case-insensitive literal
    substring; a filter that matches no column constrains nothing. *)
Definition spec_survives_filter `{V : pandas} (labels : list str)
    (kv : str * str) (r : list cell) : bool :=
  match find_column (fst kv) labels with
  | Some j => contains_nocase (snd kv) (astype_str (cell_at j r))
  | None => true
  end.

(** A row survives a free-text term iff at least one column, as a string,
    contains the term as a case-insensitive literal substring; an empty
    term constrains nothing. *)
Definition spec_survives_term `{V : pandas} (ncols : nat) (term : str)
    (r : list cell) : bool :=
  negb (PyStr.truthy term)
  || existsb (λ j, contains_nocase term (astype_str (cell_at j r)))
             (seq 0 ncols).

(** All filters and all terms. *)
Definition spec_survives `{V : pandas} (labels : list str) (terms : list str)
    (cs : dict) (r : list cell) : bool :=
  forallb (λ kv, spec_survives_filter labels kv r) cs
  && forallb (λ t, spec_survives_term (length labels) t r) terms.

Definition spec_filter `{V : pandas} (d : frame) (terms : list str) (cs : dict)
  : frame :=
  Frame (columns d) (List.filter (spec_survives (columns d) terms cs) (rows d)).

(** ** A small catalogue *)

Definition example_columns : list str :=
  [py "title"; py "type"; py "director"; py "release_year"].

Definition pulp_fiction : list cell :=
  [VStr (py "Pulp Fiction"); VStr (py "Movie");
   VStr (py "Quentin Tarantino"); VInt 1994].

Definition dark : list cell :=
  [VStr (py "Dark"); VStr (py "TV Show"); VNaN; VInt 2017].

Definition example_frame : frame :=
  Frame example_columns [pulp_fiction; dark].

(** ** Letter case of a query *)

(** The scanner state of the lowercased input. *)
Definition lower_scan_state (st : scan_state) : scan_state :=
  ScanState (map PyStr.lower (scan_terms st)) (PyStr.lower (current_term st))
            (in_quotes st).

(** A filter with its value in lower case. *)
Definition lower_value (kv : str * str) : str * str :=
  (fst kv, PyStr.lower (snd kv)).

(** The parser state of the lowercased input. *)
Definition lower_parse_state (st : parse_state) : parse_state :=
  ParseState (map PyStr.lower (final_terms st))
             (map lower_value (column_searches st)).

(** ** The text of the word cloud: [word_cloud_page] *)

Module PyText.

(** [sep.join(l)] *)
Fixpoint join (sep : str) (l : list str) : str :=
  match l with
  | [] => []
  | [x] => x
  | x :: l' => x ++ sep ++ join sep l'
  end.

(** [s.split()] with the word under construction: runs of whitespace
    separate the words, and no word is empty. *)
Fixpoint split_from (cur : str) (s : str) : list str :=
  match s with
  | [] => if PyStr.truthy cur then [cur] else []
  | c :: s' =>
      if PyStr.isspace c
      then (if PyStr.truthy cur then cur :: split_from [] s' else split_from [] s')
      else split_from (cur ++ [c]) s'
  end.

(** [s.split()] *)
Definition split (s : str) : list str := split_from [] s.

(** [\w] on U+0000..U+00FF: letters, digits and other numeric characters,
    and the underscore. *)
Definition is_word_char (c : ascii) : bool :=
  let n := N_of_ascii c in
  ((48 <=? n) && (n <=? 57) || (65 <=? n) && (n <=? 90) || (n =? 95)
   || (97 <=? n) && (n <=? 122)
   || (n =? 170) || (n =? 178) || (n =? 179) || (n =? 181) || (n =? 185)
   || (n =? 186) || (188 <=? n) && (n <=? 190)
   || (192 <=? n) && (n <=? 214) || (216 <=? n) && (n <=? 246)
   || (248 <=? n))%N.

(** [\s] is the whitespace of [str.isspace]. *)
Definition is_kept (c : ascii) : bool := is_word_char c || PyStr.isspace c.

(** [re.sub(r'[^\w\s]', '', text)] *)
Definition remove_special (text : str) : str := List.filter is_kept text.

End PyText.

Definition common_words : list str :=
  [py "the"; py "a"; py "an"; py "and"; py "or"; py "but"; py "in"; py "on";
   py "at"; py "to"; py "for"; py "of"].

(** [word not in common_words] *)
Definition uncommon (word : str) : bool := negb (bool_decide (word ∈ common_words)).

(** The items that [' '.join(column)] reads from a column of strings.  A
    missing element comes out as a float, which [join] refuses. *)
Fixpoint str_items (column : list (option str)) : result (list str) :=
  match column with
  | [] => Ok []
  | Some s :: column' => try items <- str_items column' in Ok (s :: items)
  | None :: _ => Raise TypeError
  end.

(** Lines 125-129: the cleaning of the joined text. *)
Definition clean_text (text : str) : str :=
  let text := PyText.remove_special text in
  PyText.join (py " ") (List.filter uncommon (PyText.split (PyStr.lower text))).

(** The items of [data['title'].astype(str)]. *)
Definition title_texts `{V : pandas} (titles : list cell) : result (list str) :=
  str_items (map astype_str titles).

(** Lines 122-129, on the column [data['title']]: the text handed to
    [WordCloud.generate]. *)
Definition word_cloud_text `{V : pandas} (titles : list cell) : result str :=
  try texts <- title_texts titles in
  Ok (clean_text (PyText.join (py " ") texts)).

(** The words that the text of one title contributes. *)
Definition title_words (title : str) : list str :=
  List.filter uncommon
    (PyText.split (PyStr.lower (PyText.remove_special title))).

(** ** The data page: [data_page] *)

(** What the page shows under the search box. *)
Inductive element :=
| Dataframe (data : frame)     (* [st.dataframe(data, hide_index=True, height=550)] *)
| Write (text : str)           (* [st.write(text)] *)
| WarningBox (text : str).     (* [st.warning(text)] *)

(** The outcome of a run of the page.  Streamlit refuses a second
    checkbox with the label of an earlier one. *)
Inductive page :=
| Rendered (elements : list element)
| FilterRaised (e : fault)
| DuplicateWidgetID.

(** [data[data_filters]] for a list of labels of [data]; a label selects
    the column of that name. *)
Definition select_columns (df : frame) (labels : list str) : frame :=
  Frame labels
        (map (λ r, map (λ l, cell_at (label_index l (columns df)) r) labels)
             (rows df)).

(** [f"Found {n} matches"] *)
Definition found_text (n : nat) : str :=
  py "Found " ++ py (NilZero.string_of_uint (Nat.to_uint n)) ++ py " matches".

(** Lines 92-97 and 107-117 of [data_page]: the checkboxes of the sidebar,
    one per column and each returning its state, the search, the choice
    of the columns and the table or the warning.  [checkbox] gives the
    state of the checkbox of a label and [search_input] is what the text
    input returns; the headers and spacers, which do not depend on the
    data, are left out. *)
Definition data_page `{E : RegexEngine} `{V : pandas} (data : frame)
    (checkbox : str → bool)
    (search_input : str) : page :=
  let columns := columns data in
  if bool_decide (NoDup columns) then
    let data_filters := List.filter checkbox columns in
    let searched :=
      if PyStr.truthy search_input then apply_search_filters data search_input
      else Ok data in
    match searched with
    | Raise e => FilterRaised e
    | Ok data =>
        let data := select_columns data data_filters in
        if negb (frame_is_empty data)
        then Rendered [Dataframe data; Write (found_text (length (rows data)))]
        else Rendered [WarningBox (py "No matches found")]
    end
  else DuplicateWidgetID.

(** The number of matches that a rendered page announces. *)
Definition matches_shown (p : page) : option nat :=
  match p with
  | Rendered (Dataframe data :: _) => Some (length (rows data))
  | Rendered _ => Some 0
  | _ => None
  end.

(** ** Titles per year and type: [content_type_trends] *)

Module Trends.

(** The columns that the function reads: the release year, a whole
    number, and the type, a string.  Either may be missing. *)
Record title := Title {
  release_year : option Z;
  type : option str
}.

(** The years that are present. *)
Definition years (data : list title) : list Z := omap release_year data.

(** [data['release_year'].max()], which skips the missing values; not a
    number on a column without a value. *)
Definition max_year (data : list title) : option Z :=
  match years data with
  | [] => None
  | y :: ys => Some (fold_left Z.max ys y)
  end.

(** [release_year < max_year]; a comparison with what is not a number is
    false. *)
Definition before (m : option Z) (r : title) : bool :=
  match release_year r, m with
  | Some y, Some m => (y <? m)%Z
  | _, _ => false
  end.

(** [data[data['release_year'] < max_year]] *)
Definition data_filtered (data : list title) : list title :=
  List.filter (before (max_year data)) data.

(** The rows that [groupby(['release_year', 'type'])] puts into a group:
    a row with a missing key is in none. *)
Definition grouped (rows : list title) : list (Z * str) :=
  omap (λ r, match release_year r, type r with
             | Some y, Some t => Some (y, t)
             | _, _ => None
             end) rows.

(** The size of the group of a year and a type, zero for a group that
    does not occur ([fill_value=0]). *)
Definition group_size (keys : list (Z * str)) (year : Z) (content_type : str)
  : nat :=
  length (List.filter
            (λ k, (fst k =? year)%Z && bool_decide (snd k = content_type))
            keys).

(** The order of Python on strings: by code point, a proper prefix first. *)
Fixpoint str_ltb (s t : str) : bool :=
  match s, t with
  | _, [] => false
  | [], _ :: _ => true
  | a :: s', b :: t' =>
      (N_of_ascii a <? N_of_ascii b)%N
      || (N_of_ascii a =? N_of_ascii b)%N && str_ltb s' t'
  end.

Fixpoint insert_unique {A} (ltb : A → A → bool) (x : A) (l : list A) : list A :=
  match l with
  | [] => [x]
  | y :: l' =>
      if ltb x y then x :: l
      else if ltb y x then y :: insert_unique ltb x l'
      else l
  end.

(** The distinct values in increasing order: the keys of a sorted
    [groupby]. *)
Definition sorted_unique {A} (ltb : A → A → bool) (l : list A) : list A :=
  foldr (insert_unique ltb) [] l.

(** Strictly increasing for an order given as a test. *)
Fixpoint increasing_by {A} (ltb : A → A → bool) (l : list A) : Prop :=
  match l with
  | [] => True
  | x :: l' => Forall (λ y, ltb x y = true) l' ∧ increasing_by ltb l'
  end.

(** Strictly increasing. *)
Fixpoint increasing (l : list Z) : Prop :=
  match l with
  | [] => True
  | x :: l' => Forall (λ y, x < y)%Z l' ∧ increasing l'
  end.

(** [ax.plot(yearly_content.index, yearly_content[content_type],
    label=content_type)] *)
Record line := Line {
  label : str;
  xs : list Z;
  ys : list nat
}.

(** The lines of the chart, one per column of [yearly_content]: the
    index holds the years of the groups and the columns their types, both
    in increasing order.  Without a group there is no column, and no line
    is drawn. *)
Definition yearly_lines (data : list title) : list line :=
  let keys := grouped (data_filtered data) in
  let index := sorted_unique Z.ltb (map fst keys) in
  let columns := sorted_unique str_ltb (map snd keys) in
  map (λ content_type,
         Line content_type index
              (map (λ year, group_size keys year content_type) index))
      columns.

End Trends.

(** ** Reading the mapping, and an example for the chart *)

(** [d.get(k)] *)
Fixpoint dict_get (d : dict) (k : str) : option str :=
  match d with
  | [] => None
  | (k', v) :: d' => if decide (k' = k) then Some v else dict_get d' k
  end.

Definition example_titles : list Trends.title :=
  [Trends.Title (Some 2019%Z) (Some (py "Movie"));
   Trends.Title (Some 2020%Z) (Some (py "TV Show"));
   Trends.Title (Some 2019%Z) (Some (py "TV Show"));
   Trends.Title (Some 2018%Z) None;
   Trends.Title None (Some (py "Movie"));
   Trends.Title (Some 2021%Z) (Some (py "Movie"))].

Definition example_lines : list Trends.line :=
  [Trends.Line (py "Movie") [2019; 2020]%Z [1; 0];
   Trends.Line (py "TV Show") [2019; 2020]%Z [1; 1]].

(** * Properties of the tokenizer *)

Section Scan.

Implicit Types (s : str) (st : scan_state) (c : ascii).

Lemma scan_from_app st s1 s2 :
  scan_from st (s1 ++ s2) = scan_from (scan_from st s1) s2.
Proof. apply fold_left_app. Qed.

Lemma scan_from_cons st c s :
  scan_from st (c :: s) = scan_from (scan_step st c) s.
Proof. reflexivity. Qed.

(** The tokens already emitted are a prefix of the final ones. *)
Lemma scan_from_terms ts cur q s :
  scan_from (ScanState ts cur q) s =
  let st' := scan_from (ScanState [] cur q) s in
  ScanState (ts ++ scan_terms st') (current_term st') (in_quotes st').
Proof.
  revert ts cur q. induction s as [|c s IH]; intros ts cur q.
  - cbn. by rewrite app_nil_r.
  - rewrite !scan_from_cons. unfold scan_step; cbn [scan_terms current_term in_quotes].
    repeat case_match; cbn [scan_terms current_term in_quotes];
      rewrite (IH (ts ++ _)) || rewrite (IH ts);
      try (rewrite (IH [cur]) || rewrite (IH [_ :: _]));
      cbn zeta; by rewrite ?app_nil_l, <-?app_assoc.
Qed.

Lemma split_terms_after ts s :
  scan_finish (scan_from (ScanState ts [] false) s) = ts ++ split_terms s.
Proof.
  unfold split_terms, scan_init. rewrite scan_from_terms. cbn zeta.
  unfold scan_finish; cbn [scan_terms current_term].
  case_match; by rewrite ?app_assoc.
Qed.

(** Ordinary characters are collected: outside quotes as long as they
    are not spaces, inside quotes whatever they are. *)
Lemma scan_from_word ts cur q w :
  quote_char ∉ w → (q = false → space_char ∉ w) →
  scan_from (ScanState ts cur q) w = ScanState ts (cur ++ w) q.
Proof.
  revert cur. induction w as [|c w IH]; intros cur Hq Hs.
  - cbn. by rewrite app_nil_r.
  - rewrite scan_from_cons. unfold scan_step; cbn [scan_terms current_term in_quotes].
    apply not_elem_of_cons in Hq as [Hq1 Hq2].
    destruct (Ascii.eqb_spec c quote_char) as [->|_]; [done|].
    destruct (Ascii.eqb_spec c space_char) as [->|_].
    + destruct q; cbn.
      * rewrite IH; [by rewrite <-app_assoc | done | done].
      * exfalso. apply Hs; [done | left].
    + cbn. rewrite IH; [by rewrite <-app_assoc | done |].
      intros Hf. specialize (Hs Hf). by apply not_elem_of_cons in Hs as [_ ?].
Qed.

Lemma truthy_true s : PyStr.truthy s = true ↔ s ≠ [].
Proof. by destruct s. Qed.

Lemma truthy_false s : PyStr.truthy s = false ↔ s = [].
Proof. by destruct s. Qed.




Lemma contains_char_false c s : PyStr.contains_char c s = false ↔ c ∉ s.
Proof.
  unfold PyStr.contains_char. induction s as [|x s IH]; cbn.
  - split; [intros _; apply not_elem_of_nil | done].
  - rewrite orb_false_iff, IH, not_elem_of_cons.
    destruct (Ascii.eqb_spec c x); intuition congruence.
Qed.

Lemma contains_char_true c s : PyStr.contains_char c s = true ↔ c ∈ s.
Proof.
  destruct (PyStr.contains_char c s) eqn:E.
  - split; [intros _|done]. destruct (decide (c ∈ s)) as [|Hn]; [done|].
    apply contains_char_false in Hn. congruence.
  - apply contains_char_false in E. split; [done | by intros ?].
Qed.

Lemma scan_step_quote ts cur q :
  scan_step (ScanState ts cur q) quote_char =
  if q && PyStr.truthy cur then ScanState (ts ++ [cur]) [] false
  else ScanState ts cur (negb q).
Proof. unfold scan_step. cbn. by destruct q. Qed.

Lemma scan_step_space ts cur :
  scan_step (ScanState ts cur false) space_char =
  if PyStr.truthy cur then ScanState (ts ++ [cur]) [] false
  else ScanState ts cur false.
Proof. reflexivity. Qed.

(** A bare word followed by a space is one token. *)
Lemma split_terms_word_space w rest :
  quote_char ∉ w → space_char ∉ w → w ≠ [] →
  split_terms (w ++ space_char :: rest) = w :: split_terms rest.
Proof.
  intros Hq Hs Hne. unfold split_terms at 1, scan_init.
  rewrite scan_from_app, scan_from_word by done.
  rewrite scan_from_cons, scan_step_space, app_nil_l.
  apply truthy_true in Hne. rewrite Hne.
  apply (split_terms_after [w]).
Qed.

(** A quoted span, glued to the word it follows, is one token; the
    token is emitted at the closing quote. *)
Lemma split_terms_quoted w p rest :
  quote_char ∉ w → space_char ∉ w → quote_char ∉ p → w ++ p ≠ [] →
  split_terms (w ++ quote_char :: p ++ quote_char :: rest) =
  (w ++ p) :: split_terms rest.
Proof.
  intros Hq Hs Hp Hne. unfold split_terms at 1, scan_init.
  rewrite scan_from_app, scan_from_word by done.
  rewrite scan_from_cons, scan_step_quote. cbn [andb negb].
  rewrite scan_from_app, scan_from_word by done.
  rewrite scan_from_cons, scan_step_quote, app_nil_l. cbn [andb].
  apply truthy_true in Hne. rewrite Hne.
  apply (split_terms_after [w ++ p]).
Qed.

End Scan.

Section Classify.

Lemma classify_body_final_terms terms i st :
  final_terms (snd (classify_body terms i st)) =
  final_terms st ++ List.filter no_colon [nth i terms []].
Proof.
  unfold classify_body, no_colon. cbn [List.filter].
  destruct (PyStr.contains_char colon_char (nth i terms [])); cbn [negb].
  - repeat case_match; cbn; by rewrite app_nil_r.
  - done.
Qed.

Lemma classify_from_final_terms pre suf st :
  final_terms
    (fold_left (fun st i => snd (classify_body (pre ++ suf) i st))
               (seq (length pre) (length suf)) st) =
  final_terms st ++ List.filter no_colon suf.
Proof.
  revert pre st. induction suf as [|t suf IH]; intros pre st.
  - cbn. by rewrite app_nil_r.
  - cbn [length seq fold_left].
    replace (pre ++ t :: suf) with ((pre ++ [t]) ++ suf) by by rewrite <-app_assoc.
    replace (S (length pre)) with (length (pre ++ [t]))
      by (rewrite length_app; cbn; lia).
    rewrite IH, classify_body_final_terms.
    replace (nth (length pre) ((pre ++ [t]) ++ suf) []) with t.
    + rewrite <-app_assoc. f_equal. cbn. by destruct (no_colon t).
    + rewrite <-app_assoc. cbn. by rewrite nth_middle.
Qed.

(** The free-text terms are the tokens without a colon: no token is
    left out for having been taken as a filter value. *)
Lemma parse_search_terms_terms s :
  fst (parse_search_terms s) = List.filter no_colon (split_terms s).
Proof.
  unfold parse_search_terms, classify_loop. cbn [fst].
  apply (classify_from_final_terms [] (split_terms s) parse_init).
Qed.

End Classify.

(** C1.  The code does not advance past the token it takes as the value of
    an empty-valued filter: on [rating: PG-13] and on
    [director: "Quentin Tarantino"] the value also comes out as a
    free-text term, and in general every token without a colon is a
    free-text term. *)
Theorem C1_value_token_is_also_a_term :
  parse_search_terms (py "rating: PG-13") =
    ([py "PG-13"], [(py "rating", py "PG-13")])
  ∧ parse_search_terms
      (py "director: " ++ quote_char :: py "Quentin Tarantino" ++ [quote_char]) =
    ([py "Quentin Tarantino"], [(py "director", py "Quentin Tarantino")])
  ∧ ∀ s, fst (parse_search_terms s) = List.filter no_colon (split_terms s).
Proof.
  split; [by vm_compute|]. split; [by vm_compute|].
  apply parse_search_terms_terms.
Qed.




(** C9, as the code has it.  After an opening quote that is never closed
    nothing is split any more: the rest of the input is appended to the
    token under construction at the quote, and the whole is the last
    token (if it is not empty).  When no token is under construction at
    the quote and the rest is not empty, the rest is the last token. *)
Theorem C9_unterminated_quote (pre rem : str)
  (Hpre : in_quotes (scan_from scan_init pre) = false)
  (Hrem : PyStr.contains_char quote_char rem = false) :
  let st := scan_from scan_init pre in
  split_terms (pre ++ quote_char :: rem) =
    scan_terms st ++
    (if PyStr.truthy (current_term st ++ rem) then [current_term st ++ rem] else [])
  ∧ (current_term st = [] → rem ≠ [] →
     split_terms (pre ++ quote_char :: rem) = split_terms pre ++ [rem]).
Proof.
  intros st. apply contains_char_false in Hrem.
  assert (split_terms (pre ++ quote_char :: rem) =
    scan_terms st ++
    (if PyStr.truthy (current_term st ++ rem) then [current_term st ++ rem] else []))
    as Heq.
  { unfold split_terms. rewrite scan_from_app, scan_from_cons. subst st.
    destruct (scan_from scan_init pre) as [ts cur q]. cbn in Hpre. subst q.
    rewrite scan_step_quote. cbn [andb negb]. rewrite scan_from_word by done.
    unfold scan_finish; cbn. destruct (PyStr.truthy _); by rewrite ?app_nil_r. }
  split; [done|]. intros Hcur Hne. rewrite Heq.
  unfold split_terms, scan_finish. fold st. rewrite Hcur. cbn.
  apply truthy_true in Hne. by rewrite Hne.
Qed.

Lemma C9_unterminated_quote_witness :
  let st := scan_from scan_init (py "x ") in
  split_terms (py "x " ++ quote_char :: py "b c") =
    scan_terms st ++
    (if PyStr.truthy (current_term st ++ py "b c")
     then [current_term st ++ py "b c"] else [])
  ∧ (current_term st = [] → py "b c" ≠ [] →
     split_terms (py "x " ++ quote_char :: py "b c") =
     split_terms (py "x ") ++ [py "b c"]).
Proof.
  apply (C9_unterminated_quote (py "x ") (py "b c")); reflexivity.
Defined.

(** C9 as stated fails: the last token is not always the rest of the
    input after the quote: when [a] directly precedes the quote and [b c]
    follows it, the last token is [ab c]. *)
Lemma C9_rest_is_glued_to_open_token :
  ¬ (∀ pre rem,
       in_quotes (scan_from scan_init pre) = false →
       PyStr.contains_char quote_char rem = false →
       last (split_terms (pre ++ quote_char :: rem)) = Some rem).
Proof.
  intros H. specialize (H (py "a") (py "b c") eq_refl eq_refl).
  vm_compute in H. discriminate H.
Qed.

(** * Properties of the filter engine *)

Section Masks.

Context {A : Type}.
Implicit Types (l : list A) (f : A → bool) (m : list bool).

Lemma masked_map f l :
  map fst (List.filter snd (combine l (map f l))) = List.filter f l.
Proof.
  induction l as [|x l IH]; [done|]. cbn. destruct (f x); cbn; by rewrite IH.
Qed.

Lemma masked_sublist l m :
  map fst (List.filter snd (combine l m)) `sublist_of` l.
Proof.
  revert m. induction l as [|x l IH]; intros [|b m]; cbn;
    try apply sublist_nil_l.
  destruct b; cbn.
  - by apply sublist_skip.
  - by apply sublist_cons.
Qed.

Lemma elem_of_bfilter f l x : x ∈ List.filter f l ↔ x ∈ l ∧ f x = true.
Proof. by rewrite !list_elem_of_In, filter_In. Qed.

Lemma bfilter_all f l : (∀ x, x ∈ l → f x = true) → List.filter f l = l.
Proof.
  induction l as [|x l IH]; intros H; [done|]. cbn.
  rewrite (H x) by left. f_equal. apply IH. intros y Hy. apply H. by right.
Qed.

Lemma bfilter_sublist f l : List.filter f l `sublist_of` l.
Proof. rewrite <-masked_map. apply masked_sublist. Qed.

End Masks.

Section Engine.

Context `{E : RegexEngine} `{V : pandas}.
Implicit Types (df : frame) (kv : str * str) (term : str).

Lemma boolean_index_map df f :
  boolean_index df (map f (rows df)) = Frame (columns df) (List.filter f (rows df)).
Proof. unfold boolean_index. by rewrite masked_map. Qed.

Lemma frame_eta df : Frame (columns df) (rows df) = df.
Proof. by destruct df. Qed.

Lemma reindex_shrinks df mask :
  columns (reindex df mask) = columns df
  ∧ rows (reindex df mask) `sublist_of` rows df.
Proof.
  destruct mask as [m|]; cbn; [|done]. split; [done|]. apply masked_sublist.
Qed.

Lemma column_filter_step_shrinks df kv df1 :
  column_filter_step df kv = Ok df1 →
  columns df1 = columns df ∧ rows df1 `sublist_of` rows df.
Proof.
  unfold column_filter_step. destruct (column_filter_mask df kv); [|done].
  intros [= <-]. apply reindex_shrinks.
Qed.

Lemma term_filter_step_shrinks df term df1 :
  term_filter_step df term = Ok df1 →
  columns df1 = columns df ∧ rows df1 `sublist_of` rows df.
Proof.
  unfold term_filter_step. destruct (term_filter_mask df term); [|done].
  intros [= <-]. apply reindex_shrinks.
Qed.

(** What a step has kept once, it keeps again. *)
Lemma column_filter_step_mono df kv df1 df2 :
  column_filter_step df kv = Ok df1 → below df2 df1 →
  column_filter_step df2 kv = Ok df2.
Proof.
  unfold column_filter_step, column_filter_mask. destruct kv as [col value].
  intros Hstep [Hcols Hrows].
  assert (columns df1 = columns df) as Hc1.
  { by apply (column_filter_step_shrinks df (col, value)). }
  rewrite Hcols, Hc1.
  destruct (List.filter _ (columns df)) as [|c0 ?]; [done|].
  unfold column_str in *. rewrite Hcols, Hc1.
  destruct (1 <? count_label c0 (columns df)); [done|].
  unfold str_contains in *. cbn [bind] in *.
  destruct (re_compile value) as [p|]; [|done]. cbn [bind] in *.
  injection Hstep as <-. rewrite !map_map in *. cbn [reindex] in *.
  rewrite boolean_index_map in Hrows. cbn [rows] in Hrows.
  rewrite boolean_index_map, bfilter_all, frame_eta; [done|].
  intros r Hr. apply Hrows, elem_of_bfilter in Hr. tauto.
Qed.

Lemma frame_is_empty_true df :
  frame_is_empty df = true ↔ rows df = [] ∨ columns df = [].
Proof.
  unfold frame_is_empty. destruct (rows df), (columns df); intuition congruence.
Qed.

Lemma term_filter_step_mono df term df1 df2 :
  term_filter_step df term = Ok df1 → below df2 df1 →
  term_filter_step df2 term = Ok df2.
Proof.
  unfold term_filter_step, term_filter_mask.
  intros Hstep [Hcols Hrows].
  assert (columns df1 = columns df) as Hc1.
  { by apply (term_filter_step_shrinks df term). }
  destruct (PyStr.truthy term); [|done].
  destruct (frame_is_empty df) eqn:Hemp.
  - cbn [bind] in Hstep. injection Hstep as <-.
    rewrite boolean_index_map in Hrows. cbn [rows] in Hrows.
    assert (rows df2 = []) as Hnil.
    { destruct (rows df2) as [|r ?]; [done|]. exfalso.
      assert (r ∈ List.filter (λ _, false) (rows df)) as Hr
        by (apply Hrows; left).
      by apply elem_of_bfilter in Hr as [_ ?]. }
    assert (frame_is_empty df2 = true) as ->.
    { apply frame_is_empty_true. by left. }
    cbn. rewrite boolean_index_map, Hnil. cbn. by rewrite <-Hnil, frame_eta.
  - destruct (re_compile term) as [p|]; [|done]. cbn [bind] in *.
    injection Hstep as <-. cbn [reindex] in *.
    rewrite boolean_index_map in Hrows. cbn [rows] in Hrows.
    destruct (frame_is_empty df2) eqn:Hemp2; cbn [bind reindex].
    + apply frame_is_empty_true in Hemp2 as [Hnil|Hnil].
      * rewrite boolean_index_map, Hnil. cbn. by rewrite <-Hnil, frame_eta.
      * exfalso. rewrite Hcols, Hc1 in Hnil.
        assert (frame_is_empty df = true); [|congruence].
        apply frame_is_empty_true. by right.
    + rewrite Hcols, Hc1. rewrite boolean_index_map, bfilter_all, frame_eta; [done|].
      intros r Hr. apply Hrows, elem_of_bfilter in Hr. tauto.
Qed.

Section ForEach.

Context {X : Type} (body : frame → X → result frame).
Hypothesis body_shrinks : ∀ df x df1,
  body df x = Ok df1 →
  columns df1 = columns df ∧ rows df1 `sublist_of` rows df.
Hypothesis body_mono : ∀ df x df1 df2,
  body df x = Ok df1 → below df2 df1 → body df2 x = Ok df2.

Lemma for_each_shrinks l df df1 :
  for_each body l df = Ok df1 →
  columns df1 = columns df ∧ rows df1 `sublist_of` rows df.
Proof.
  revert df. induction l as [|x l IH]; intros df; cbn.
  - by intros [= <-].
  - destruct (body df x) as [df'|] eqn:Hb; [|done]. cbn. intros Hl.
    destruct (body_shrinks _ _ _ Hb) as [Hc Hr].
    destruct (IH _ Hl) as [Hc' Hr'].
    split; [congruence | by etrans].
Qed.

Lemma for_each_mono l df df1 df2 :
  for_each body l df = Ok df1 → below df2 df1 →
  for_each body l df2 = Ok df2.
Proof.
  revert df. induction l as [|x l IH]; intros df; cbn; [done|].
  destruct (body df x) as [df'|] eqn:Hb; [|done]. cbn. intros Hl Hbelow.
  destruct (for_each_shrinks _ _ _ Hl) as [Hc Hr].
  rewrite (body_mono _ _ _ df2 Hb).
  - cbn. by apply (IH df').
  - destruct Hbelow as [Hc2 Hr2]. split; [congruence|].
    etrans; [done|]. by apply sublist_subseteq.
Qed.

End ForEach.

Lemma apply_parsed_shrinks df terms cs df1 :
  apply_parsed df terms cs = Ok df1 →
  columns df1 = columns df ∧ rows df1 `sublist_of` rows df.
Proof.
  unfold apply_parsed.
  destruct (for_each column_filter_step cs df) as [df'|] eqn:Hc; [|done].
  cbn. intros Ht.
  apply (for_each_shrinks _ column_filter_step_shrinks) in Hc as [? ?].
  apply (for_each_shrinks _ term_filter_step_shrinks) in Ht as [? ?].
  split; [congruence | by etrans].
Qed.

Lemma apply_parsed_mono df terms cs df1 df2 :
  apply_parsed df terms cs = Ok df1 → below df2 df1 →
  apply_parsed df2 terms cs = Ok df2.
Proof.
  unfold apply_parsed.
  destruct (for_each column_filter_step cs df) as [df'|] eqn:Hc; [|done].
  cbn. intros Ht Hbelow.
  destruct (for_each_shrinks _ term_filter_step_shrinks _ _ _ Ht) as [Hc1 Hr1].
  rewrite (for_each_mono _ column_filter_step_shrinks column_filter_step_mono
             _ _ _ df2 Hc).
  - cbn. by apply (for_each_mono _ term_filter_step_shrinks term_filter_step_mono
                     _ _ _ df2 Ht).
  - destruct Hbelow as [? ?]. split; [congruence|].
    etrans; [done|]. by apply sublist_subseteq.
Qed.

Lemma below_refl df : below df df.
Proof. by split. Qed.

End Engine.

Section Strip.

Lemma lstrip_all_space q : forallb PyStr.isspace q = true → PyStr.lstrip q = [].
Proof.
  induction q as [|c q IH]; [done|]. cbn. intros [Hc Hq]%andb_true_iff.
  rewrite Hc. by apply IH.
Qed.

Lemma strip_all_space q : forallb PyStr.isspace q = true → PyStr.strip q = [].
Proof. intros H. unfold PyStr.strip. by rewrite lstrip_all_space. Qed.

End Strip.

Section StoreSpec.

Import Store.

Lemma deref_old (h h2 : heap) l : l < length h → deref (h ++ h2) l = deref h l.
Proof. intros. unfold deref. by rewrite app_nth1. Qed.

Lemma deref_new (h : heap) f : deref (h ++ [f]) (length h) = f.
Proof. unfold deref. by rewrite nth_middle. Qed.

Context {X : Type} (mask_of : frame → X → result (option (list bool))).

Let body (df : frame) (x : X) : result frame :=
  try mask <- mask_of df x in Ok (reindex df mask).

(** The loop over references allocates and never writes; the reference
    it ends on holds what the loop over values computes. *)
Lemma for_each_ref_spec l h cur :
  cur < length h →
  match for_each body l (deref h cur) with
  | Ok d' => ∃ h2 cur', for_each_ref mask_of l h cur = (h ++ h2, Ok cur')
                        ∧ cur' < length (h ++ h2) ∧ deref (h ++ h2) cur' = d'
  | Raise e => ∃ h2, for_each_ref mask_of l h cur = (h ++ h2, Raise e)
  end.
Proof.
  revert h cur. induction l as [|x l IH]; intros h cur Hcur; cbn.
  - exists [], cur. by rewrite app_nil_r.
  - unfold body at 1. destruct (mask_of (deref h cur) x) as [[m|]|e]; cbn.
    + specialize (IH (h ++ [boolean_index (deref h cur) m]) (length h)).
      rewrite deref_new in IH. rewrite length_app in IH. cbn in IH.
      specialize (IH ltac:(lia)).
      destruct (for_each body l _) as [d'|e].
      * destruct IH as (h2 & cur' & -> & Hlt & Hd).
        exists ([boolean_index (deref h cur) m] ++ h2), cur'.
        rewrite app_assoc. by repeat split.
      * destruct IH as (h2 & ->).
        exists ([boolean_index (deref h cur) m] ++ h2). by rewrite app_assoc.
    + by apply IH.
    + exists []. by rewrite app_nil_r.
Qed.

End StoreSpec.

Section StoreFilter.

Import Store.
Context `{E : RegexEngine} `{V : pandas}.

Lemma apply_search_filters_ref_spec h l q :
  l < length h →
  match apply_search_filters (deref h l) q with
  | Ok d' => ∃ h2 l', apply_search_filters_ref h l q = (h ++ h2, Ok l')
                      ∧ deref (h ++ h2) l' = d'
  | Raise e => ∃ h2, apply_search_filters_ref h l q = (h ++ h2, Raise e)
  end.
Proof.
  intros Hl. unfold apply_search_filters, apply_search_filters_ref.
  destruct (negb _).
  { exists [], l. by rewrite app_nil_r. }
  destruct (parse_search_terms q) as [terms cs]. cbn [alloc].
  unfold apply_parsed.
  pose proof (for_each_ref_spec column_filter_mask cs
                (h ++ [deref h l]) (length h)) as Hc.
  rewrite deref_new, length_app in Hc. cbn in Hc. specialize (Hc ltac:(lia)).
  change (λ df x, try mask <- column_filter_mask df x in Ok (reindex df mask))
    with column_filter_step in Hc.
  destruct (for_each column_filter_step cs (deref h l)) as [d1|e]; cbn.
  - destruct Hc as (h2 & cur & -> & Hlt & Hd).
    pose proof (for_each_ref_spec term_filter_mask terms _ cur Hlt) as Ht.
    change (λ df x, try mask <- term_filter_mask df x in Ok (reindex df mask))
      with term_filter_step in Ht.
    rewrite Hd in Ht.
    destruct (for_each term_filter_step terms d1) as [d2|e].
    + destruct Ht as (h3 & cur' & -> & _ & Hd').
      exists (([deref h l] ++ h2) ++ h3), cur'.
      by rewrite !app_assoc in *.
    + destruct Ht as (h3 & ->).
      exists (([deref h l] ++ h2) ++ h3). by rewrite !app_assoc.
  - destruct Hc as (h2 & ->). exists ([deref h l] ++ h2). by rewrite app_assoc.
Qed.

End StoreFilter.

(** C4.  A query that is empty or made of whitespace only returns the
    dataset as it is: the same value, and over the store the very same
    object, with nothing allocated. *)
Theorem C4_blank_query_is_identity `{E : RegexEngine} `{V : pandas}
  (d : frame) (q : str)
  (Hblank : forallb PyStr.isspace q = true) :
  apply_search_filters d q = Ok d
  ∧ ∀ h l, Store.apply_search_filters_ref h l q = (h, Ok l).
Proof.
  unfold apply_search_filters, Store.apply_search_filters_ref.
  by rewrite strip_all_space.
Qed.

(** C6.  The result has the columns of the dataset, and its rows are a
    subsequence of the rows of the dataset. *)
Theorem C6_result_is_subsequence `{E : RegexEngine} `{V : pandas}
  (d : frame) (q : str)
  (d' : frame) (Hrun : apply_search_filters d q = Ok d') :
  rows d' `sublist_of` rows d ∧ columns d' = columns d.
Proof.
  unfold apply_search_filters in Hrun. destruct (negb _).
  - by injection Hrun as <-.
  - destruct (parse_search_terms q) as [terms cs].
    by apply apply_parsed_shrinks in Hrun as [? ?].
Qed.

(** C5.  Filtering the result again with the same query returns the
    result; and over the store the call only allocates: every object that
    was there, the input among them, is there unchanged afterwards, and
    the reference returned holds the result.  The store is only extended
    also when the call raises. *)
Theorem C5_idempotent_and_pure `{E : RegexEngine} `{V : pandas}
  (d : frame) (q : str)
  (d' : frame) (Hrun : apply_search_filters d q = Ok d') :
  apply_search_filters d' q = Ok d'
  ∧ (∀ h l, l < length h → Store.deref h l = d →
       ∃ h2 l', Store.apply_search_filters_ref h l q = (h ++ h2, Ok l')
                ∧ Store.deref (h ++ h2) l' = d'
                ∧ Store.deref (h ++ h2) l = d)
  ∧ (∀ h l q2, l < length h →
       ∃ h2, fst (Store.apply_search_filters_ref h l q2) = h ++ h2).
Proof.
  split; [|split].
  - unfold apply_search_filters in *. destruct (negb _); [done|].
    destruct (parse_search_terms q) as [terms cs].
    eapply apply_parsed_mono; [done | apply below_refl].
  - intros h l Hl Hd.
    pose proof (apply_search_filters_ref_spec h l q Hl) as Hspec.
    rewrite Hd, Hrun in Hspec. destruct Hspec as (h2 & l' & Href & Hd').
    exists h2, l'. split; [done|]. split; [done|].
    by rewrite deref_old.
  - intros h l q2 Hl.
    pose proof (apply_search_filters_ref_spec h l q2 Hl) as Hspec.
    destruct (apply_search_filters (Store.deref h l) q2).
    + destruct Hspec as (h2 & l' & -> & _). by exists h2.
    + destruct Hspec as (h2 & ->). by exists h2.
Qed.

Section UnknownColumn.

Context `{E : RegexEngine} `{V : pandas}.

Lemma for_each_app {X S} (body : S → X → result S) l1 l2 s :
  for_each body (l1 ++ l2) s =
  try s' <- for_each body l1 s in for_each body l2 s'.
Proof.
  revert s. induction l1 as [|x l1 IH]; intros s; cbn; [done|].
  destruct (body s x); cbn; [apply IH | done].
Qed.

Lemma no_matching_cols cols col :
  Forall (λ c, PyStr.lower c ≠ PyStr.lower col) cols →
  List.filter (λ c, bool_decide (PyStr.lower c = PyStr.lower col)) cols = [].
Proof.
  induction 1 as [|c cols Hc _ IH]; [done|]. cbn.
  by rewrite bool_decide_eq_false_2.
Qed.

Lemma column_filter_step_unknown df col value :
  Forall (λ c, PyStr.lower c ≠ PyStr.lower col) (columns df) →
  column_filter_step df (col, value) = Ok df.
Proof.
  intros H. unfold column_filter_step, column_filter_mask.
  by rewrite no_matching_cols.
Qed.

End UnknownColumn.

(** C7.  A column filter whose key equals no column label, case apart,
    is skipped without an error, whatever its value: the step leaves the
    frame as it is, and the filter can be taken out of the mapping
    without changing the outcome.  On a dataset with the columns [title]
    and [type] the query [foo:bar] returns the dataset. *)
Theorem C7_unknown_column_is_ignored `{E : RegexEngine} `{V : pandas}
  (d : frame)
  (col value : str)
  (Hnone : Forall (λ c, PyStr.lower c ≠ PyStr.lower col) (columns d)) :
  column_filter_step d (col, value) = Ok d
  ∧ (∀ terms cs1 cs2,
       apply_parsed d terms (cs1 ++ (col, value) :: cs2) =
       apply_parsed d terms (cs1 ++ cs2))
  ∧ (∀ d2, columns d2 = [py "title"; py "type"] →
           apply_search_filters d2 (py "foo:bar") = Ok d2).
Proof.
  split; [by apply column_filter_step_unknown|]. split.
  - intros terms cs1 cs2. unfold apply_parsed. f_equal.
    rewrite !for_each_app.
    destruct (for_each column_filter_step cs1 d) as [d1|] eqn:H1; [|done].
    cbn [bind for_each].
    apply (for_each_shrinks _ column_filter_step_shrinks) in H1 as [Hc _].
    rewrite column_filter_step_unknown; [done | by rewrite Hc].
  - intros d2 Hcols.
    unfold apply_search_filters.
    replace (PyStr.strip (py "foo:bar")) with (py "foo:bar") by by vm_compute.
    replace (parse_search_terms (py "foo:bar"))
      with ([] : list str, [(py "foo", py "bar")]) by by vm_compute.
    unfold apply_parsed. cbn [negb PyStr.truthy list_ascii_of_string for_each].
    rewrite column_filter_step_unknown; [done|].
    rewrite Hcols. repeat constructor; by vm_compute.
Qed.

Section Literal.

Context `{V : pandas}.

Lemma ordinary_Forall s :
  ordinary s = true ↔ Forall (λ c, PyRe.is_special c = false) s.
Proof.
  unfold ordinary. rewrite forallb_forall, Forall_forall.
  setoid_rewrite list_elem_of_In. setoid_rewrite negb_true_iff. done.
Qed.

Lemma compile_ordinary p :
  ordinary p = true → PyRe.compile p = Ok (map PyRe.Lit p).
Proof.
  intros H%ordinary_Forall. unfold PyRe.compile.
  assert (forallb PyRe.covered p = true) as ->.
  { apply forallb_forall. intros c Hc%list_elem_of_In.
    rewrite Forall_forall in H. unfold PyRe.covered. by rewrite (H c Hc). }
  cbn [negb].
  assert (PyStr.contains_char PyRe.lparen_char p = false) as ->.
  { apply contains_char_false. intros Hin.
    rewrite Forall_forall in H. by specialize (H _ Hin). }
  f_equal. apply map_ext_Forall. eapply Forall_impl; [done|].
  intros c Hc. unfold PyRe.atom_of.
  destruct (Ascii.eqb_spec c PyRe.dot_char) as [->|]; done.
Qed.

Lemma match_here_lit p s :
  PyRe.match_here (map PyRe.Lit p) s = PyStr.is_prefix_by PyStr.eq_nocase p s.
Proof.
  revert s. induction p as [|a p IH]; intros [|x s]; cbn; try done.
  by rewrite IH.
Qed.

(** An ordinary pattern is searched for as a case-insensitive literal
    substring. *)
Lemma search_lit p s :
  PyRe.search (map PyRe.Lit p) s = PyStr.substring_nocase p s.
Proof.
  unfold PyStr.substring_nocase.
  induction s as [|x s IH]; cbn [PyRe.search PyStr.occurs_by];
    rewrite match_here_lit; [done|]. by rewrite IH.
Qed.

Lemma search_in_lit p x :
  search_in (E := py_re) (map PyRe.Lit p) x = contains_nocase p x.
Proof. destruct x as [s|]; [apply search_lit | done]. Qed.

Lemma find_column_spec col labels :
  match find_column col labels with
  | None =>
      List.filter (λ c, bool_decide (PyStr.lower c = PyStr.lower col)) labels = []
  | Some j =>
      ∃ c0 rest,
        List.filter (λ c, bool_decide (PyStr.lower c = PyStr.lower col)) labels
        = c0 :: rest
        ∧ PyStr.lower c0 = PyStr.lower col
        ∧ label_index c0 labels = j
  end.
Proof.
  induction labels as [|l labels IH]; cbn; [done|].
  case_bool_decide as Hl; cbn.
  - eexists l, _. by rewrite decide_True.
  - destruct (find_column col labels) as [j|]; cbn; [|done].
    destruct IH as (c0 & rest & -> & Hc0 & <-).
    exists c0, rest. split; [done|]. split; [done|].
    rewrite decide_False; [done | congruence].
Qed.

Lemma count_label_NoDup c labels :
  NoDup labels → count_label c labels ≤ 1.
Proof.
  unfold count_label. induction 1 as [|l labels Hl _ IH]; cbn; [lia|].
  case_bool_decide as Heq; cbn; [|done]. subst l.
  rewrite (proj2 (length_zero_iff_nil _)); [lia|].
  destruct (List.filter _ labels) as [|x ?] eqn:Hf; [done|]. exfalso.
  assert (x ∈ List.filter (λ l, bool_decide (l = c)) labels) as Hx
    by (rewrite Hf; left).
  apply elem_of_bfilter in Hx as [Hx Hxc]. apply bool_decide_eq_true in Hxc.
  by subst x.
Qed.

Lemma bfilter_true {A} (l : list A) : List.filter (λ _, true) l = l.
Proof. by apply bfilter_all. Qed.

Lemma column_filter_step_ordinary df col value :
  NoDup (columns df) → ordinary value = true →
  column_filter_step (E := py_re) df (col, value) =
  Ok (Frame (columns df)
            (List.filter (spec_survives_filter (columns df) (col, value))
                         (rows df))).
Proof.
  intros Hnd Hord. unfold column_filter_step, column_filter_mask.
  unfold spec_survives_filter. cbn [fst snd].
  pose proof (find_column_spec col (columns df)) as Hfind.
  destruct (find_column col (columns df)) as [j|].
  - destruct Hfind as (c0 & rest & -> & _ & Hj).
    unfold column_str.
    assert ((1 <? count_label c0 (columns df)) = false) as ->.
    { apply Nat.ltb_ge. by apply count_label_NoDup. }
    unfold str_contains. cbn [bind re_compile py_re].
    rewrite compile_ordinary by done. cbn [bind reindex re_search].
    rewrite map_map, boolean_index_map, Hj. do 2 f_equal.
    apply filter_ext. intros r. apply search_in_lit.
  - rewrite Hfind. cbn. by rewrite bfilter_true, frame_eta.
Qed.

Lemma term_filter_step_ordinary df term :
  ordinary term = true →
  term_filter_step (E := py_re) df term =
  Ok (Frame (columns df)
            (List.filter (spec_survives_term (length (columns df)) term)
                         (rows df))).
Proof.
  intros Hord. unfold term_filter_step, term_filter_mask, spec_survives_term.
  destruct (PyStr.truthy term); cbn [negb orb].
  - destruct (frame_is_empty df) eqn:Hemp; cbn [bind reindex].
    + rewrite boolean_index_map. do 2 f_equal.
      apply frame_is_empty_true in Hemp as [->| ->]; [done|].
      by apply filter_ext.
    + cbn [re_compile py_re]. rewrite compile_ordinary by done.
      cbn [bind reindex]. rewrite boolean_index_map. do 2 f_equal.
      apply filter_ext. intros r. unfold row_any.
      induction (seq 0 _) as [|j js IH]; cbn [existsb]; [done|].
      by rewrite search_in_lit, IH.
  - cbn. by rewrite bfilter_true, frame_eta.
Qed.

Lemma bfilter_bfilter {A} (f g : A → bool) l :
  List.filter g (List.filter f l) = List.filter (λ x, f x && g x) l.
Proof.
  induction l as [|x l IH]; [done|]. cbn.
  destruct (f x); cbn; [|done]. destruct (g x); by rewrite IH.
Qed.

(** A loop of steps that each keep the rows passing a test keeps the
    rows passing all the tests. *)
Lemma for_each_filter {X} (body : frame → X → result frame)
    (P : list str → X → list cell → bool) (ok : list str → X → Prop) l df :
  (∀ df x, ok (columns df) x → body df x =
     Ok (Frame (columns df) (List.filter (P (columns df) x) (rows df)))) →
  Forall (ok (columns df)) l →
  for_each body l df =
  Ok (Frame (columns df)
            (List.filter (λ r, forallb (λ x, P (columns df) x r) l) (rows df))).
Proof.
  intros Hbody Hl. revert df Hl.
  induction l as [|x l IH]; intros df Hl; cbn.
  - by rewrite bfilter_true, frame_eta.
  - apply Forall_cons in Hl as [Hx Hl].
    rewrite Hbody by done. cbn. rewrite IH by done. cbn.
    by rewrite bfilter_bfilter.
Qed.

(** On ordinary terms and values the engine computes the filter of the
    specification. *)
Lemma apply_parsed_ordinary d terms cs :
  NoDup (columns d) →
  Forall (λ t, ordinary t = true) terms →
  Forall (λ kv, ordinary (snd kv) = true) cs →
  apply_parsed (E := py_re) d terms cs = Ok (spec_filter d terms cs).
Proof.
  intros Hnd Hts Hcs. unfold apply_parsed, spec_filter, spec_survives.
  rewrite (for_each_filter column_filter_step spec_survives_filter
             (λ labels kv, NoDup labels ∧ ordinary (snd kv) = true)).
  - cbn [bind].
    rewrite (for_each_filter term_filter_step
               (λ labels, spec_survives_term (length labels))
               (λ _ t, ordinary t = true)).
    + cbn. by rewrite bfilter_bfilter.
    + intros df t Ht. by apply term_filter_step_ordinary.
    + done.
  - intros df [col value] [? ?]. by apply column_filter_step_ordinary.
  - eapply Forall_impl; [done|]. by intros kv ?.
Qed.

End Literal.

(** The characters of the terms and of the filter values all come from
    the query. *)
Section Characters.

Context (P : ascii → Prop).

Lemma Forall_lstrip s : Forall P s → Forall P (PyStr.lstrip s).
Proof.
  induction 1 as [|c s Hc Hs IH]; cbn; [done|].
  destruct (PyStr.isspace c); [done | by constructor].
Qed.

Lemma Forall_strip s : Forall P s → Forall P (PyStr.strip s).
Proof.
  intros H. unfold PyStr.strip, PyStr.rstrip.
  by apply Forall_rev, Forall_lstrip, Forall_rev, Forall_lstrip.
Qed.

Lemma Forall_split_first c s :
  Forall P s →
  Forall P (fst (PyStr.split_first c s)) ∧ Forall P (snd (PyStr.split_first c s)).
Proof.
  induction 1 as [|x s Hx Hs IH]; cbn; [done|].
  destruct (Ascii.eqb x c); cbn; [done|].
  destruct (PyStr.split_first c s) as [a b]. cbn in *.
  split; [constructor|]; tauto.
Qed.

Lemma Forall_scan_step st c :
  P c → Forall (Forall P) (scan_terms st) → Forall P (current_term st) →
  Forall (Forall P) (scan_terms (scan_step st c))
  ∧ Forall P (current_term (scan_step st c)).
Proof.
  intros Hc Hts Hcur. unfold scan_step.
  repeat case_match; cbn [scan_terms current_term];
    rewrite ?Forall_app; repeat split; by repeat constructor.
Qed.

Lemma Forall_scan_from st s :
  Forall P s → Forall (Forall P) (scan_terms st) → Forall P (current_term st) →
  Forall (Forall P) (scan_terms (scan_from st s))
  ∧ Forall P (current_term (scan_from st s)).
Proof.
  intros Hs. revert st. induction Hs as [|c s Hc _ IH]; intros st Hts Hcur; [done|].
  rewrite scan_from_cons.
  destruct (Forall_scan_step st c) as [? ?]; [done..|]. by apply IH.
Qed.

Lemma Forall_split_terms s : Forall P s → Forall (Forall P) (split_terms s).
Proof.
  intros Hs. unfold split_terms, scan_finish.
  destruct (Forall_scan_from scan_init s) as [? ?]; [done | constructor..|].
  case_match; rewrite ?Forall_app; repeat split; by repeat constructor.
Qed.

Lemma Forall_dict_set (d : dict) k v :
  Forall (λ kv, Forall P (snd kv)) d → Forall P v →
  Forall (λ kv, Forall P (snd kv)) (dict_set d k v).
Proof.
  intros Hd Hv. induction Hd as [|[k' v'] d Hkv Hd IH]; cbn.
  - by repeat constructor.
  - case_decide; by constructor.
Qed.

Lemma Forall_nth_term terms i : Forall (Forall P) terms → Forall P (nth i terms []).
Proof.
  intros H. destruct (nth_in_or_default i terms []) as [Hin| ->]; [|done].
  rewrite Forall_forall in H. by apply H, list_elem_of_In.
Qed.

Lemma Forall_classify_body terms i st :
  Forall (Forall P) terms →
  Forall (Forall P) (final_terms st) →
  Forall (λ kv, Forall P (snd kv)) (column_searches st) →
  Forall (Forall P) (final_terms (snd (classify_body terms i st)))
  ∧ Forall (λ kv, Forall P (snd kv)) (column_searches (snd (classify_body terms i st))).
Proof.
  intros Hterms Hft Hcs. unfold classify_body.
  pose proof (Forall_nth_term terms i Hterms) as Hi.
  pose proof (Forall_nth_term terms (i + 1) Hterms) as Hi1.
  destruct (Forall_split_first colon_char _ Hi) as [_ Hv].
  repeat case_match; simplify_eq; cbn [snd final_terms column_searches];
    (split; [try done|]);
    try (apply Forall_dict_set; [done|]; by apply Forall_strip);
    try done.
  rewrite Forall_app. by repeat constructor.
Qed.

Lemma Forall_parse_search_terms q :
  Forall P q →
  Forall (Forall P) (fst (parse_search_terms q))
  ∧ Forall (λ kv, Forall P (snd kv)) (snd (parse_search_terms q)).
Proof.
  intros Hq%Forall_split_terms. unfold parse_search_terms, classify_loop.
  cbn [fst snd]. set (terms := split_terms q) in *.
  assert (∀ l st,
    Forall (Forall P) (final_terms st) →
    Forall (λ kv, Forall P (snd kv)) (column_searches st) →
    let st' := fold_left (λ st i, snd (classify_body terms i st)) l st in
    Forall (Forall P) (final_terms st')
    ∧ Forall (λ kv, Forall P (snd kv)) (column_searches st')) as Hloop.
  { induction l as [|i l IH]; intros st H1 H2; cbn; [done|].
    destruct (Forall_classify_body terms i st) as [? ?]; [done..|].
    by apply IH. }
  apply Hloop; constructor.
Qed.

End Characters.

Lemma ordinary_parse q :
  ordinary q = true →
  Forall (λ t, ordinary t = true) (fst (parse_search_terms q))
  ∧ Forall (λ kv, ordinary (snd kv) = true) (snd (parse_search_terms q)).
Proof.
  intros Hq%ordinary_Forall.
  destruct (Forall_parse_search_terms _ q Hq) as [Ht Hc].
  split; (eapply Forall_impl; [done|]); intros ?; by rewrite ordinary_Forall.
Qed.

Lemma apply_search_filters_ordinary `{V : pandas} d q :
  NoDup (columns d) → ordinary q = true →
  apply_search_filters (E := py_re) d q =
  Ok (if PyStr.truthy (PyStr.strip q)
      then spec_filter d (fst (parse_search_terms q)) (snd (parse_search_terms q))
      else d).
Proof.
  intros Hnd Hq. unfold apply_search_filters.
  destruct (PyStr.truthy (PyStr.strip q)); cbn [negb]; [|done].
  destruct (ordinary_parse q Hq) as [Ht Hc].
  destruct (parse_search_terms q) as [terms cs]. cbn [fst snd] in *.
  by apply apply_parsed_ordinary.
Qed.

Lemma example_columns_NoDup : NoDup example_columns.
Proof. apply (bool_decide_unpack _). by vm_compute. Qed.

(** Where an exception comes from: with distinct labels a step raises
    only what compiling its pattern raises. *)
Section Raises.

Context `{E : RegexEngine} `{V : pandas}.
Implicit Types (df : frame) (e : fault).

Lemma column_filter_step_raise df col value e :
  NoDup (columns df) → column_filter_step df (col, value) = Raise e →
  re_compile value = Raise e.
Proof.
  intros Hnd. unfold column_filter_step, column_filter_mask.
  destruct (List.filter _ (columns df)) as [|c0 ?]; [done|].
  unfold column_str.
  rewrite (proj2 (Nat.ltb_ge _ _)) by by apply count_label_NoDup.
  unfold str_contains. cbn [bind].
  destruct (re_compile value); [done|]. by intros [= ->].
Qed.

Lemma term_filter_step_raise df term e :
  term_filter_step df term = Raise e → re_compile term = Raise e.
Proof.
  unfold term_filter_step, term_filter_mask.
  destruct (PyStr.truthy term); [|done].
  destruct (frame_is_empty df); [done|].
  destruct (re_compile term); [done|]. by intros [= ->].
Qed.

(** A loop raises what its body raises on one of the elements, on a frame
    with the columns of the input. *)
Lemma for_each_raise {X} (body : frame → X → result frame) l df e :
  (∀ df x df1, body df x = Ok df1 →
     columns df1 = columns df ∧ rows df1 `sublist_of` rows df) →
  for_each body l df = Raise e →
  ∃ x df', x ∈ l ∧ columns df' = columns df ∧ body df' x = Raise e.
Proof.
  intros Hshrinks. revert df. induction l as [|x l IH]; intros df; cbn; [done|].
  destruct (body df x) as [df1|e1] eqn:Hb; cbn.
  - intros (y & df' & Hy & Hc & Hraise)%IH.
    exists y, df'. split; [by right|]. split; [|done].
    destruct (Hshrinks _ _ _ Hb) as [Hc1 _]. congruence.
  - intros [= ->]. exists x, df. split; [left | done].
Qed.

Lemma apply_parsed_raise d terms cs e :
  NoDup (columns d) → apply_parsed d terms cs = Raise e →
  ∃ pat, (pat ∈ terms ∨ pat ∈ map snd cs) ∧ re_compile pat = Raise e.
Proof.
  intros Hnd. unfold apply_parsed.
  destruct (for_each column_filter_step cs d) as [d1|e1] eqn:Hc; cbn [bind].
  - intros (t & df' & Ht & _ & Hraise)%(for_each_raise _ _ _ _ term_filter_step_shrinks).
    exists t. split; [by left|]. by eapply term_filter_step_raise.
  - intros [= ->].
    apply (for_each_raise _ _ _ _ column_filter_step_shrinks) in Hc
      as ([col value] & df' & Hkv & Hcols & Hraise).
    exists value. split.
    + right. by apply (list_elem_of_fmap_2 snd) in Hkv.
    + apply (column_filter_step_raise df' col); [by rewrite Hcols | done].
Qed.

End Raises.

(** What becomes of a missing value, release by release. *)
Section Nan.

Lemma is_prefix_by_chars eqc p s :
  PyStr.is_prefix_by eqc p s = true →
  Forall (λ c, ∃ x, x ∈ s ∧ eqc c x = true) p.
Proof.
  revert s. induction p as [|a p IH]; intros [|x s]; cbn; try done.
  intros [Ha Hp]%andb_true_iff. constructor.
  - exists x. split; [left | done].
  - eapply Forall_impl; [by apply IH|]. intros c (y & ? & ?).
    exists y. split; [by right | done].
Qed.

Lemma occurs_by_chars eqc p s :
  PyStr.occurs_by eqc p s = true →
  Forall (λ c, ∃ x, x ∈ s ∧ eqc c x = true) p.
Proof.
  induction s as [|x s IH]; cbn [PyStr.occurs_by].
  - rewrite orb_false_r. apply is_prefix_by_chars.
  - intros [H|H]%orb_true_iff; [by apply is_prefix_by_chars|].
    eapply Forall_impl; [by apply IH|]. intros c (y & ? & ?).
    exists y. split; [by right | done].
Qed.

Lemma eq_nocase_n_ordinary c :
  PyStr.eq_nocase c "n"%char = true → PyRe.is_special c = false.
Proof. destruct c as [[] [] [] [] [] [] [] []]; by vm_compute. Qed.

Lemma eq_nocase_a_ordinary c :
  PyStr.eq_nocase c "a"%char = true → PyRe.is_special c = false.
Proof. destruct c as [[] [] [] [] [] [] [] []]; by vm_compute. Qed.

Lemma substring_of_nan_ordinary t :
  PyStr.substring_nocase t (py "nan") = true → ordinary t = true.
Proof.
  intros H%occurs_by_chars. apply ordinary_Forall.
  eapply Forall_impl; [done|]. intros c (x & Hx & Hc). cbn in Hx.
  repeat (apply elem_of_cons in Hx as [->|Hx]);
    [by apply eq_nocase_n_ordinary | by apply eq_nocase_a_ordinary
     | by apply eq_nocase_n_ordinary | by apply elem_of_nil in Hx].
Qed.

(** Up to pandas 2 the missing value reads [nan]. *)
Lemma term_keeps_nan_row d r j t :
  r ∈ rows d → j < length (columns d) → cell_at j r = VNaN →
  PyStr.substring_nocase t (py "nan") = true →
  ∃ d', term_filter_step (E := py_re) (V := Pandas2) d t = Ok d' ∧ r ∈ rows d'.
Proof.
  intros Hr Hj Hnan Ht. eexists. split.
  - by apply term_filter_step_ordinary, substring_of_nan_ordinary.
  - cbn [rows]. apply elem_of_bfilter. split; [done|].
    unfold spec_survives_term. apply orb_true_iff. right.
    apply existsb_exists. exists j. split; [|by rewrite Hnan].
    apply in_seq. lia.
Qed.

Lemma column_keeps_nan_row d r j t col :
  r ∈ rows d → cell_at j r = VNaN →
  PyStr.substring_nocase t (py "nan") = true →
  NoDup (columns d) → find_column col (columns d) = Some j →
  ∃ d', column_filter_step (E := py_re) (V := Pandas2) d (col, t) = Ok d'
        ∧ r ∈ rows d'.
Proof.
  intros Hr Hnan Ht Hnd Hfind. eexists. split.
  - by apply column_filter_step_ordinary, substring_of_nan_ordinary.
  - cbn [rows]. apply elem_of_bfilter. split; [done|].
    unfold spec_survives_filter. cbn [fst snd]. by rewrite Hfind, Hnan.
Qed.

(** From pandas 3 on it stays missing, and nothing is found in it. *)
Lemma column_drops_missing_row d r j t col :
  cell_at j r = VNaN → ordinary t = true →
  NoDup (columns d) → find_column col (columns d) = Some j →
  ∃ d', column_filter_step (E := py_re) (V := Pandas3) d (col, t) = Ok d'
        ∧ (r ∉ rows d').
Proof.
  intros Hnan Ht Hnd Hfind. eexists. split.
  - by apply column_filter_step_ordinary.
  - cbn [rows]. rewrite elem_of_bfilter. intros [_ Hs].
    unfold spec_survives_filter in Hs. cbn [fst snd] in Hs.
    by rewrite Hfind, Hnan in Hs.
Qed.

Lemma term_reads_present_values d r t :
  r ∈ rows d → t ≠ [] → ordinary t = true →
  ∃ d', term_filter_step (E := py_re) (V := Pandas3) d t = Ok d'
        ∧ (r ∈ rows d' ↔
           ∃ i s, i < length (columns d)
                  ∧ astype_str (V := Pandas3) (cell_at i r) = Some s
                  ∧ PyStr.substring_nocase t s = true).
Proof.
  intros Hr Hne Ht. eexists. split; [by apply term_filter_step_ordinary|].
  cbn [rows]. rewrite elem_of_bfilter. unfold spec_survives_term.
  apply truthy_true in Hne. rewrite Hne. cbn [negb orb]. split.
  - intros [_ (i & Hi%in_seq & Hs)%existsb_exists].
    destruct (astype_str (cell_at i r)) as [s|] eqn:Hcell; [|done].
    exists i, s. split; [lia | done].
  - intros (i & s & Hi & Hcell & Hs). split; [done|].
    apply existsb_exists. exists i. split; [apply in_seq; lia|].
    by rewrite Hcell.
Qed.

End Nan.

(** C2, as the code has it.  On a dataset whose column labels are
    distinct the call ends in an exception only when a term or a filter
    value of the query is not a regular expression, and the exception is
    the one that compiling it raises; this for any regular-expression
    library and either release of pandas.  So a query whose terms and
    values all compile never raises, whatever its quotes and colons, and
    with Python's [re] every query without special characters is such a
    query. *)
Theorem C2_only_invalid_patterns_raise `{V : pandas} (d : frame) (q : str)
  (Hcols : NoDup (columns d)) :
  (∀ (E : RegexEngine) e,
     apply_search_filters d q = Raise e →
     ∃ pat, (pat ∈ fst (parse_search_terms q)
             ∨ pat ∈ map snd (snd (parse_search_terms q)))
            ∧ re_compile pat = Raise e)
  ∧ (∀ E : RegexEngine,
       Forall (λ t, ∃ p, re_compile t = Ok p) (fst (parse_search_terms q)) →
       Forall (λ kv, ∃ p, re_compile (snd kv) = Ok p) (snd (parse_search_terms q)) →
       ∃ d', apply_search_filters d q = Ok d')
  ∧ (ordinary q = true → ∃ d', apply_search_filters (E := py_re) d q = Ok d').
Proof.
  assert (∀ (E : RegexEngine) e,
     apply_search_filters d q = Raise e →
     ∃ pat, (pat ∈ fst (parse_search_terms q)
             ∨ pat ∈ map snd (snd (parse_search_terms q)))
            ∧ re_compile pat = Raise e) as Hraise.
  { intros E e. unfold apply_search_filters. destruct (negb _); [done|].
    destruct (parse_search_terms q) as [terms cs]. cbn [fst snd].
    by apply apply_parsed_raise. }
  split; [done|]. split.
  - intros E Hterms Hvalues.
    destruct (apply_search_filters d q) as [d'|e] eqn:Hrun; [by exists d'|].
    exfalso. destruct (Hraise E e Hrun) as (pat & [Hin|Hin] & Hpat).
    + rewrite Forall_forall in Hterms.
      destruct (Hterms pat Hin) as [p Hp]. congruence.
    + apply list_elem_of_fmap in Hin as (kv & -> & Hkv).
      rewrite Forall_forall in Hvalues.
      destruct (Hvalues kv Hkv) as [p Hp]. congruence.
  - intros Hq. eexists. by apply apply_search_filters_ordinary.
Qed.

Lemma C2_only_invalid_patterns_raise_witness :
  (∀ (E : RegexEngine) e,
     apply_search_filters (V := Pandas3) example_frame
       (py "year: director: " ++ quote_char :: py "quentin t.r") = Raise e →
     ∃ pat, (pat ∈ fst (parse_search_terms
                          (py "year: director: " ++ quote_char :: py "quentin t.r"))
             ∨ pat ∈ map snd (snd (parse_search_terms
                          (py "year: director: " ++ quote_char :: py "quentin t.r"))))
            ∧ re_compile pat = Raise e)
  ∧ (∀ E : RegexEngine,
       Forall (λ t, ∃ p, re_compile t = Ok p)
              (fst (parse_search_terms
                      (py "year: director: " ++ quote_char :: py "quentin t.r"))) →
       Forall (λ kv, ∃ p, re_compile (snd kv) = Ok p)
              (snd (parse_search_terms
                      (py "year: director: " ++ quote_char :: py "quentin t.r"))) →
       ∃ d', apply_search_filters (V := Pandas3) example_frame
               (py "year: director: " ++ quote_char :: py "quentin t.r") = Ok d')
  ∧ (ordinary (py "year: director: " ++ quote_char :: py "quentin t.r") = true →
     ∃ d', apply_search_filters (E := py_re) (V := Pandas3) example_frame
             (py "year: director: " ++ quote_char :: py "quentin t.r") = Ok d').
Proof.
  apply (C2_only_invalid_patterns_raise (V := Pandas3) example_frame
           (py "year: director: " ++ quote_char :: py "quentin t.r")).
  apply (bool_decide_unpack _). by vm_compute.
Defined.

(** C2 as stated fails: the query [(] is not a regular expression, and
    the call raises on it, under either release of pandas.  And on a
    dataset that has a label twice a filter on that label raises, valid
    as its value is. *)
Lemma C2_open_parenthesis_raises :
  ¬ (∀ d q, ∃ d', apply_search_filters (E := py_re) (V := Pandas2) d q = Ok d')
  ∧ ¬ (∀ d q, ∃ d', apply_search_filters (E := py_re) (V := Pandas3) d q = Ok d')
  ∧ apply_search_filters (E := py_re) (V := Pandas2) example_frame (py "(")
    = Raise ReError
  ∧ apply_search_filters (E := py_re) (V := Pandas3) example_frame (py "(")
    = Raise ReError
  ∧ apply_search_filters (E := py_re) (V := Pandas2)
      (Frame [py "cast"; py "cast"] [[VStr (py "a"); VStr (py "b")]]) (py "cast:a")
    = Raise AttributeError
  ∧ apply_search_filters (E := py_re) (V := Pandas3)
      (Frame [py "cast"; py "cast"] [[VStr (py "a"); VStr (py "b")]]) (py "cast:a")
    = Raise AttributeError.
Proof.
  split; [|split; [|by vm_compute]];
    intros H; destruct (H example_frame (py "(")) as [d' Hd'];
    vm_compute in Hd'; discriminate Hd'.
Qed.

(** C3, as the code has it.  When no term and no filter value holds a
    special character of regular expressions (and the column labels are
    distinct), the engine keeps exactly the rows that pass every column
    filter on its first matching column and every term on at least one
    column, by case-insensitive literal substring. *)
Theorem C3_literal_matching_of_ordinary_patterns `{V : pandas} (d : frame)
  (terms : list str) (cs : dict)
  (Hcols : NoDup (columns d))
  (Hterms : forallb ordinary terms = true)
  (Hvalues : forallb (λ kv, ordinary (snd kv)) cs = true) :
  apply_parsed (E := py_re) d terms cs = Ok (spec_filter d terms cs)
  ∧ ∀ r, r ∈ rows (spec_filter d terms cs) ↔
         r ∈ rows d
         ∧ (∀ kv, kv ∈ cs → spec_survives_filter (columns d) kv r = true)
         ∧ (∀ t, t ∈ terms → spec_survives_term (length (columns d)) t r = true).
Proof.
  split.
  - apply apply_parsed_ordinary; [done|..]; apply Forall_forall; intros x Hx.
    + rewrite forallb_forall in Hterms. by apply Hterms, list_elem_of_In.
    + rewrite forallb_forall in Hvalues. by apply Hvalues, list_elem_of_In.
  - intros r. unfold spec_filter, spec_survives. cbn [rows].
    rewrite elem_of_bfilter, andb_true_iff, !forallb_forall.
    by setoid_rewrite list_elem_of_In.
Qed.

Lemma C3_literal_matching_of_ordinary_patterns_witness :
  apply_parsed (E := py_re) (V := Pandas3) example_frame
    [py "FICTION"] [(py "type", py "movie")]
  = Ok (spec_filter (V := Pandas3) example_frame
          [py "FICTION"] [(py "type", py "movie")])
  ∧ ∀ r, r ∈ rows (spec_filter (V := Pandas3) example_frame
                     [py "FICTION"] [(py "type", py "movie")]) ↔
         r ∈ rows example_frame
         ∧ (∀ kv, kv ∈ [(py "type", py "movie")] →
                  spec_survives_filter (V := Pandas3)
                    (columns example_frame) kv r = true)
         ∧ (∀ t, t ∈ [py "FICTION"] →
                 spec_survives_term (V := Pandas3)
                   (length (columns example_frame)) t r = true).
Proof.
  apply (C3_literal_matching_of_ordinary_patterns (V := Pandas3) example_frame
           [py "FICTION"] [(py "type", py "movie")]).
  - apply (bool_decide_unpack _). by vm_compute.
  - reflexivity.
  - reflexivity.
Defined.

(** C3 as stated fails: a term is a regular expression, not a literal.
    The term [a.c] keeps a row whose only text is [abc], under either
    release of pandas. *)
Lemma C3_dot_is_a_wildcard :
  ¬ (∀ d terms cs,
       apply_parsed (E := py_re) (V := Pandas2) d terms cs
       = Ok (spec_filter (V := Pandas2) d terms cs))
  ∧ ¬ (∀ d terms cs,
       apply_parsed (E := py_re) (V := Pandas3) d terms cs
       = Ok (spec_filter (V := Pandas3) d terms cs)).
Proof.
  split; intros H;
    specialize (H (Frame [py "title"] [[VStr (py "abc")]]) [py "a.c"] []);
    vm_compute in H; discriminate H.
Qed.

(** C10, as the code has it.  What a missing value matches depends on the
    release of pandas.  Up to pandas 2 it is matched through its
    rendering [nan]: a row with a missing value in some column is kept by
    every term that is a case-insensitive substring of [nan], by a column
    filter with such a value on the column that holds the missing value
    when the labels are distinct, and by the query [nan].  From pandas 3
    on the value stays missing and nothing matches it: the column filter
    drops the row, and a term keeps it only for a value that is present
    in another column. *)
Theorem C10_missing_values_by_release (d : frame) (r : list cell)
  (j : nat) (t : str)
  (Hr : r ∈ rows d) (Hj : j < length (columns d))
  (Hnan : cell_at j r = VNaN)
  (Ht : PyStr.substring_nocase t (py "nan") = true) :
  ((∃ d', term_filter_step (E := py_re) (V := Pandas2) d t = Ok d' ∧ r ∈ rows d')
   ∧ (∀ col, NoDup (columns d) → find_column col (columns d) = Some j →
        ∃ d', column_filter_step (E := py_re) (V := Pandas2) d (col, t) = Ok d'
              ∧ r ∈ rows d')
   ∧ (∃ d', apply_search_filters (E := py_re) (V := Pandas2) d (py "nan") = Ok d'
            ∧ r ∈ rows d'))
  ∧ ((∀ col, NoDup (columns d) → find_column col (columns d) = Some j →
        ∃ d', column_filter_step (E := py_re) (V := Pandas3) d (col, t) = Ok d'
              ∧ (r ∉ rows d'))
     ∧ (t ≠ [] →
        ∃ d', term_filter_step (E := py_re) (V := Pandas3) d t = Ok d'
              ∧ (r ∈ rows d' ↔
                 ∃ i s, i < length (columns d)
                        ∧ astype_str (V := Pandas3) (cell_at i r) = Some s
                        ∧ PyStr.substring_nocase t s = true))
     ∧ (∃ d', apply_search_filters (E := py_re) (V := Pandas3) d (py "nan") = Ok d'
              ∧ (r ∈ rows d' ↔
                 ∃ i s, i < length (columns d)
                        ∧ astype_str (V := Pandas3) (cell_at i r) = Some s
                        ∧ PyStr.substring_nocase (py "nan") s = true))).
Proof.
  assert (∀ (V : pandas) d1,
    term_filter_step (E := py_re) d (py "nan") = Ok d1 →
    apply_search_filters (E := py_re) d (py "nan") = Ok d1) as Hquery.
  { intros V d1 Hd1. unfold apply_search_filters.
    replace (PyStr.truthy (PyStr.strip (py "nan"))) with true by by vm_compute.
    replace (parse_search_terms (py "nan"))
      with ([py "nan"], [] : dict) by by vm_compute.
    unfold apply_parsed. cbn [negb for_each bind]. by rewrite Hd1. }
  pose proof (substring_of_nan_ordinary t Ht) as Hord.
  split; [split; [|split] | split; [|split]].
  - by eapply term_keeps_nan_row.
  - intros col Hnd Hfind. by eapply column_keeps_nan_row.
  - destruct (term_keeps_nan_row d r j (py "nan")) as (d' & Hd' & Hin); [done..|].
    exists d'. split; [by apply Hquery | done].
  - intros col Hnd Hfind. by eapply column_drops_missing_row.
  - intros Hne. by apply term_reads_present_values.
  - destruct (term_reads_present_values d r (py "nan")) as (d' & Hd' & Hin);
      [done..|].
    exists d'. split; [by apply Hquery | done].
Qed.

Lemma C10_missing_values_by_release_witness :
  ((∃ d', term_filter_step (E := py_re) (V := Pandas2) example_frame (py "NA") = Ok d'
          ∧ dark ∈ rows d')
   ∧ (∀ col, NoDup (columns example_frame) →
        find_column col (columns example_frame) = Some 2 →
        ∃ d', column_filter_step (E := py_re) (V := Pandas2) example_frame
                (col, py "NA") = Ok d'
              ∧ dark ∈ rows d')
   ∧ (∃ d', apply_search_filters (E := py_re) (V := Pandas2) example_frame
              (py "nan") = Ok d'
            ∧ dark ∈ rows d'))
  ∧ ((∀ col, NoDup (columns example_frame) →
        find_column col (columns example_frame) = Some 2 →
        ∃ d', column_filter_step (E := py_re) (V := Pandas3) example_frame
                (col, py "NA") = Ok d'
              ∧ (dark ∉ rows d'))
     ∧ (py "NA" ≠ [] →
        ∃ d', term_filter_step (E := py_re) (V := Pandas3) example_frame (py "NA") = Ok d'
              ∧ (dark ∈ rows d' ↔
                 ∃ i s, i < length (columns example_frame)
                        ∧ astype_str (V := Pandas3) (cell_at i dark) = Some s
                        ∧ PyStr.substring_nocase (py "NA") s = true))
     ∧ (∃ d', apply_search_filters (E := py_re) (V := Pandas3) example_frame
                (py "nan") = Ok d'
              ∧ (dark ∈ rows d' ↔
                 ∃ i s, i < length (columns example_frame)
                        ∧ astype_str (V := Pandas3) (cell_at i dark) = Some s
                        ∧ PyStr.substring_nocase (py "nan") s = true))).
Proof.
  apply (C10_missing_values_by_release example_frame dark 2 (py "NA")).
  - right; left.
  - cbn. lia.
  - reflexivity.
  - reflexivity.
Defined.

(** C10 as stated fails twice.  Under pandas 3 the query [nan] keeps no
    row of the catalogue, although one of them has no director; and
    under either release a column filter on a label that the dataset has
    twice ends in an exception, whatever the rows hold. *)
Lemma C10_missing_value_is_not_matched :
  apply_search_filters (E := py_re) (V := Pandas3) example_frame (py "nan")
  = Ok (Frame example_columns [])
  ∧ column_filter_step (E := py_re) (V := Pandas2)
      (Frame [py "cast"; py "cast"] [[VNaN; VNaN]]) (py "cast", py "nan")
    = Raise AttributeError
  ∧ column_filter_step (E := py_re) (V := Pandas3)
      (Frame [py "cast"; py "cast"] [[VNaN; VNaN]]) (py "cast", py "nan")
    = Raise AttributeError.
Proof. by vm_compute. Qed.

(** Witnesses of the properties of the engine on the catalogue. *)

Lemma C4_blank_query_is_identity_witness :
  apply_search_filters (E := py_re) (V := Pandas3) example_frame (py "   ")
  = Ok example_frame
  ∧ ∀ h l, Store.apply_search_filters_ref (E := py_re) (V := Pandas3) h l (py "   ")
           = (h, Ok l).
Proof.
  apply (C4_blank_query_is_identity (E := py_re) (V := Pandas3) example_frame (py "   ")).
  reflexivity.
Defined.

Lemma C6_result_is_subsequence_witness :
  rows (Frame example_columns [dark]) `sublist_of` rows example_frame
  ∧ columns (Frame example_columns [dark]) = columns example_frame.
Proof.
  apply (C6_result_is_subsequence (E := py_re) (V := Pandas3) example_frame
           (py "type:show dark") (Frame example_columns [dark])).
  reflexivity.
Defined.

Lemma C5_idempotent_and_pure_witness :
  apply_search_filters (E := py_re) (V := Pandas3) (Frame example_columns [dark])
    (py "type:show dark") = Ok (Frame example_columns [dark])
  ∧ (∀ h l, l < length h → Store.deref h l = example_frame →
       ∃ h2 l', Store.apply_search_filters_ref (E := py_re) (V := Pandas3) h l
                  (py "type:show dark") = (h ++ h2, Ok l')
                ∧ Store.deref (h ++ h2) l' = Frame example_columns [dark]
                ∧ Store.deref (h ++ h2) l = example_frame)
  ∧ (∀ h l q2, l < length h →
       ∃ h2, fst (Store.apply_search_filters_ref (E := py_re) (V := Pandas3) h l q2)
             = h ++ h2).
Proof.
  apply (C5_idempotent_and_pure (E := py_re) (V := Pandas3) example_frame
           (py "type:show dark") (Frame example_columns [dark])).
  reflexivity.
Defined.

Lemma C7_unknown_column_is_ignored_witness :
  column_filter_step (E := py_re) (V := Pandas3) example_frame (py "foo", py "(")
  = Ok example_frame
  ∧ (∀ terms cs1 cs2,
       apply_parsed (E := py_re) (V := Pandas3) example_frame terms
         (cs1 ++ (py "foo", py "(") :: cs2) =
       apply_parsed (E := py_re) (V := Pandas3) example_frame terms (cs1 ++ cs2))
  ∧ (∀ d2, columns d2 = [py "title"; py "type"] →
           apply_search_filters (E := py_re) (V := Pandas3) d2 (py "foo:bar") = Ok d2).
Proof.
  apply (C7_unknown_column_is_ignored (E := py_re) (V := Pandas3) example_frame
           (py "foo") (py "(")).
  repeat constructor; by vm_compute.
Defined.

(** * Further properties of the tokenizer *)

Section TokenizerMore.

Implicit Types (s k v w : str) (c : ascii).

Lemma split_terms_spaces s :
  Forall (λ c, c = space_char) s → split_terms s = [].
Proof.
  intros H. unfold split_terms.
  assert (scan_from scan_init s = scan_init) as ->; [|done].
  induction H as [|c s -> _ IH]; [done|]. by rewrite scan_from_cons.
Qed.

Lemma split_terms_single w :
  quote_char ∉ w → space_char ∉ w → w ≠ [] → split_terms w = [w].
Proof.
  intros Hq Hs Hne. unfold split_terms, scan_init.
  rewrite scan_from_word by done. unfold scan_finish; cbn.
  apply truthy_true in Hne. by rewrite Hne.
Qed.

Lemma split_first_first_colon k v :
  colon_char ∉ k →
  PyStr.split_first colon_char (k ++ colon_char :: v) = (k, v).
Proof.
  induction k as [|x k IH]; intros Hk; cbn; [done|].
  apply not_elem_of_cons in Hk as [Hx Hk].
  destruct (Ascii.eqb_spec x colon_char) as [->|_]; [done|]. by rewrite IH.
Qed.

Lemma contains_colon_middle k v :
  PyStr.contains_char colon_char (k ++ colon_char :: v) = true.
Proof. apply contains_char_true. apply elem_of_app. right. left. Qed.

(** The content of a scanner state: the characters collected so far. *)
Lemma scan_step_content st c :
  concat (scan_terms (scan_step st c)) ++ current_term (scan_step st c) =
  (concat (scan_terms st) ++ current_term st)
  ++ (if Ascii.eqb c quote_char then []
      else if Ascii.eqb c space_char && negb (in_quotes st) then []
      else [c]).
Proof.
  unfold scan_step.
  destruct (Ascii.eqb c quote_char).
  - destruct (negb (negb (in_quotes st)) && PyStr.truthy (current_term st));
      cbn [scan_terms current_term];
      by rewrite ?concat_app, ?app_nil_r; cbn; rewrite ?app_nil_r.
  - destruct (Ascii.eqb c space_char && negb (in_quotes st)).
    + destruct (PyStr.truthy (current_term st)); cbn [scan_terms current_term];
        by rewrite ?concat_app, ?app_nil_r; cbn; rewrite ?app_nil_r.
    + cbn [scan_terms current_term]. by rewrite app_assoc.
Qed.

Lemma scan_finish_content st :
  concat (scan_finish st) = concat (scan_terms st) ++ current_term st.
Proof.
  unfold scan_finish. destruct (current_term st) as [|c cur]; cbn [PyStr.truthy].
  - by rewrite app_nil_r.
  - rewrite concat_app. cbn. by rewrite app_nil_r.
Qed.

End TokenizerMore.

(** X1.  The tokenizer neither drops nor invents characters: apart from
    double quotes and spaces, the characters of the tokens, in order, are
    the characters of the query. *)
Theorem tokens_conserve_characters (s : str) :
  let keep c := negb (Ascii.eqb c quote_char) && negb (Ascii.eqb c space_char) in
  List.filter keep (concat (split_terms s)) = List.filter keep s.
Proof.
  intros keep. unfold split_terms. rewrite scan_finish_content.
  assert (∀ st,
    List.filter keep (concat (scan_terms (scan_from st s))
                      ++ current_term (scan_from st s)) =
    List.filter keep (concat (scan_terms st) ++ current_term st)
    ++ List.filter keep s) as H; [|apply (H scan_init)].
  induction s as [|c s IH]; intros st.
  - cbn. by rewrite app_nil_r.
  - rewrite scan_from_cons, IH, scan_step_content, List.filter_app, <-app_assoc.
    f_equal. subst keep.
    destruct (Ascii.eqb c quote_char) eqn:Eq, (Ascii.eqb c space_char) eqn:Es,
      (in_quotes st); cbn; by rewrite ?Eq, ?Es.
Qed.

(** X2.  In a query without double quotes the tokens, put together, are
    the query without its spaces: every other character, tabs and other
    whitespace included, reaches a token. *)
Theorem tokens_of_unquoted_query (s : str)
  (Hq : PyStr.contains_char quote_char s = false) :
  concat (split_terms s) = List.filter (λ c, negb (Ascii.eqb c space_char)) s
  ∧ Forall (λ t, PyStr.contains_char space_char t = false) (split_terms s).
Proof.
  apply contains_char_false in Hq. unfold split_terms.
  assert (∀ st, in_quotes st = false →
    Forall (λ t, space_char ∉ t) (scan_terms st) → space_char ∉ current_term st →
    let st' := scan_from st s in
    in_quotes st' = false
    ∧ concat (scan_terms st') ++ current_term st' =
      (concat (scan_terms st) ++ current_term st)
      ++ List.filter (λ c, negb (Ascii.eqb c space_char)) s
    ∧ Forall (λ t, space_char ∉ t) (scan_terms st')
    ∧ space_char ∉ current_term st') as H.
  { induction s as [|c s IH]; intros st Hst Hts Hcur.
    - cbn. by rewrite app_nil_r.
    - apply not_elem_of_cons in Hq as [Hc Hq].
      rewrite scan_from_cons.
      assert (Ascii.eqb c quote_char = false) as Hcq.
      { apply Ascii.eqb_neq. congruence. }
      destruct (IH Hq (scan_step st c)) as (Hq' & Hcont & Hts' & Hcur').
      + unfold scan_step. rewrite Hcq, Hst. by repeat case_match.
      + unfold scan_step. rewrite Hcq, Hst.
        repeat case_match; cbn [scan_terms]; try done.
        apply Forall_app. split; [done|]. by repeat constructor.
      + unfold scan_step. rewrite Hcq, Hst.
        destruct (Ascii.eqb_spec c space_char) as [->|Hsp]; cbn [andb negb].
        * case_match; [apply not_elem_of_nil | done].
        * cbn [current_term]. rewrite elem_of_app, list_elem_of_singleton.
          intros [?|?]; [done | congruence].
      + split; [done|]. split; [|done].
        rewrite Hcont, scan_step_content, Hcq, Hst, <-app_assoc. f_equal.
        cbn. by destruct (Ascii.eqb c space_char). }
  destruct (H scan_init) as (_ & Hcont & Hts & Hcur);
    [done | constructor | apply not_elem_of_nil |].
  split.
  - by rewrite scan_finish_content, Hcont.
  - unfold scan_finish. eapply Forall_impl with (P := λ t, space_char ∉ t).
    + case_match; [|done]. apply Forall_app. split; [done|]. by repeat constructor.
    + intros t. by rewrite contains_char_false.
Qed.

Lemma tokens_of_unquoted_query_witness :
  concat (split_terms (py " love  actually "))
  = List.filter (λ c, negb (Ascii.eqb c space_char)) (py " love  actually ")
  ∧ Forall (λ t, PyStr.contains_char space_char t = false)
           (split_terms (py " love  actually ")).
Proof. apply (tokens_of_unquoted_query (py " love  actually ")). reflexivity. Defined.

Section Trim.

Implicit Types (s t : str) (c : ascii).

Lemma lower_char_idem c : PyStr.lower_char (PyStr.lower_char c) = PyStr.lower_char c.
Proof. destruct c as [[] [] [] [] [] [] [] []]; by vm_compute. Qed.

Lemma isspace_lower_char c : PyStr.isspace (PyStr.lower_char c) = PyStr.isspace c.
Proof. destruct c as [[] [] [] [] [] [] [] []]; by vm_compute. Qed.

Lemma lower_idem s : PyStr.lower (PyStr.lower s) = PyStr.lower s.
Proof.
  unfold PyStr.lower. rewrite map_map. apply map_ext. intros c. apply lower_char_idem.
Qed.

Lemma lstrip_lower s : PyStr.lstrip (PyStr.lower s) = PyStr.lower (PyStr.lstrip s).
Proof.
  induction s as [|c s IH]; [done|]. cbn. rewrite isspace_lower_char.
  by destruct (PyStr.isspace c).
Qed.

Lemma strip_lower s : PyStr.strip (PyStr.lower s) = PyStr.lower (PyStr.strip s).
Proof.
  unfold PyStr.strip, PyStr.rstrip. rewrite lstrip_lower.
  unfold PyStr.lower at 1. rewrite <-map_rev. fold (PyStr.lower (rev (PyStr.lstrip s))).
  rewrite lstrip_lower. unfold PyStr.lower. by rewrite map_rev.
Qed.

Lemma lstrip_idem s : PyStr.lstrip (PyStr.lstrip s) = PyStr.lstrip s.
Proof.
  induction s as [|c s IH]; [done|]. cbn.
  destruct (PyStr.isspace c) eqn:E; [done|]. cbn. by rewrite E.
Qed.

Lemma lstrip_length s : length (PyStr.lstrip s) ≤ length s.
Proof.
  induction s as [|c s IH]; cbn; [lia|]. destruct (PyStr.isspace c); cbn; lia.
Qed.

(** A string that [lstrip] leaves alone is empty or starts with a
    character that is not whitespace. *)
Lemma lstrip_fixed s :
  PyStr.lstrip s = s ↔ match s with [] => True | c :: _ => PyStr.isspace c = false end.
Proof.
  destruct s as [|c s]; cbn; [done|].
  destruct (PyStr.isspace c); split; try done.
  intros H. pose proof (lstrip_length s) as Hl. rewrite H in Hl. cbn in Hl. lia.
Qed.

Lemma lstrip_snoc s c :
  PyStr.isspace c = false → PyStr.lstrip (s ++ [c]) = PyStr.lstrip s ++ [c].
Proof.
  intros Hc. induction s as [|x s IH]; cbn; [by rewrite Hc|].
  by destruct (PyStr.isspace x).
Qed.

Lemma lstrip_rstrip s :
  PyStr.lstrip s = s → PyStr.lstrip (PyStr.rstrip s) = PyStr.rstrip s.
Proof.
  intros H%lstrip_fixed. destruct s as [|c s]; [done|].
  unfold PyStr.rstrip. cbn [rev]. rewrite lstrip_snoc by done.
  rewrite rev_app_distr. cbn. by rewrite H.
Qed.

Lemma strip_idem s : PyStr.strip (PyStr.strip s) = PyStr.strip s.
Proof.
  unfold PyStr.strip.
  rewrite (lstrip_rstrip (PyStr.lstrip s)) by apply lstrip_idem.
  unfold PyStr.rstrip. by rewrite rev_involutive, lstrip_idem.
Qed.

End Trim.

Section DictKeys.

Implicit Types (d : dict) (k v : str).

Lemma dict_set_keys d k v :
  map fst (dict_set d k v) =
  if decide (k ∈ map fst d) then map fst d else map fst d ++ [k].
Proof.
  induction d as [|[k' v'] d IH]; cbn; [done|].
  destruct (decide (k' = k)) as [->|Hne]; cbn.
  - rewrite decide_True; [done | left].
  - rewrite IH. destruct (decide (k ∈ map fst d)) as [Hin|Hnin].
    + rewrite decide_True; [done | by right].
    + rewrite decide_False; [done|]. rewrite not_elem_of_cons. split; [congruence | done].
Qed.

Lemma dict_set_NoDup d k v : NoDup (map fst d) → NoDup (map fst (dict_set d k v)).
Proof.
  intros H. rewrite dict_set_keys. case_decide; [done|].
  apply NoDup_app. split; [done|]. split.
  - intros x Hx [->|[]%elem_of_nil]%elem_of_cons. done.
  - apply NoDup_singleton.
Qed.

Lemma dict_set_Forall (Q : str * str → Prop) d k v :
  Forall Q d → Q (k, v) → Forall Q (dict_set d k v).
Proof.
  intros Hd Hkv. induction Hd as [|[k' v'] d Hq Hd IH]; cbn.
  - by repeat constructor.
  - case_decide; by constructor.
Qed.

(** Every entry of the mapping was written by [column_searches[col] =
    value.strip()] with [col] a stripped and lowercased key. *)
Lemma column_searches_ind (I : dict → Prop) :
  I [] →
  (∀ d x y, I d → I (dict_set d (PyStr.lower (PyStr.strip x)) (PyStr.strip y))) →
  ∀ terms, I (column_searches (classify_loop terms)).
Proof.
  intros Hnil Hset terms. unfold classify_loop.
  assert (∀ l st, I (column_searches st) →
    I (column_searches (fold_left (λ st i, snd (classify_body terms i st)) l st)))
    as H; [|by apply H].
  induction l as [|i l IH]; intros st Hst; cbn [fold_left]; [done|].
  apply IH. unfold classify_body.
  repeat case_match; simplify_eq; cbn [snd column_searches]; try done; apply Hset; done.
Qed.

End DictKeys.

(** X3.  In the mapping of column filters every key occurs once, is in
    lower case and has no whitespace around it, and every value has no
    whitespace around it. *)
Theorem column_filters_are_normalised (s : str) :
  let cs := snd (parse_search_terms s) in
  NoDup (map fst cs)
  ∧ Forall (λ kv, PyStr.lower (fst kv) = fst kv
                  ∧ PyStr.strip (fst kv) = fst kv
                  ∧ PyStr.strip (snd kv) = snd kv) cs.
Proof.
  cbn zeta. unfold parse_search_terms. cbn [snd].
  apply (column_searches_ind (λ d, NoDup (map fst d) ∧ Forall _ d)).
  - split; constructor.
  - intros d x y [Hnd Hall]. split; [by apply dict_set_NoDup|].
    apply dict_set_Forall; [done|]. cbn [fst snd].
    by rewrite lower_idem, <-strip_lower, !strip_idem.
Qed.

Lemma parse_filter_token (k v : str) :
  quote_char ∉ k → space_char ∉ k → colon_char ∉ k →
  quote_char ∉ v → space_char ∉ v →
  parse_search_terms (k ++ colon_char :: v) =
  ([], [(PyStr.lower (PyStr.strip k), PyStr.strip v)]).
Proof.
  intros Hkq Hks Hkc Hvq Hvs.
  unfold parse_search_terms. rewrite split_terms_single.
  - unfold classify_loop. cbn [length seq fold_left]. unfold classify_body.
    cbn [nth]. rewrite contains_colon_middle, split_first_first_colon by done.
    cbn [fst snd length]. change (0 + 1 <? 1) with false.
    by destruct (negb (PyStr.truthy (PyStr.strip v))).
  - rewrite elem_of_app, elem_of_cons. intros [?|[?|?]]; done.
  - rewrite elem_of_app, elem_of_cons. intros [?|[?|?]]; done.
  - by destruct k.
Qed.

(** X4.  A token [k:v] is split at its first colon only: the key is the
    part before it, stripped and lowercased, and the value is all the
    rest, further colons included, stripped.  With nothing after the
    colon, and no token to follow, the value is the empty string. *)
Theorem single_filter_token (k v : str)
  (Hkq : PyStr.contains_char quote_char k = false)
  (Hks : PyStr.contains_char space_char k = false)
  (Hkc : PyStr.contains_char colon_char k = false)
  (Hvq : PyStr.contains_char quote_char v = false)
  (Hvs : PyStr.contains_char space_char v = false) :
  parse_search_terms (k ++ colon_char :: v) =
  ([], [(PyStr.lower (PyStr.strip k), PyStr.strip v)]).
Proof.
  apply contains_char_false in Hkq, Hks, Hkc, Hvq, Hvs.
  by apply parse_filter_token.
Qed.

Lemma single_filter_token_witness :
  parse_search_terms (py "Title" ++ colon_char :: py "2:22") =
  ([], [(PyStr.lower (PyStr.strip (py "Title")), PyStr.strip (py "2:22"))]).
Proof. apply (single_filter_token (py "Title") (py "2:22")); reflexivity. Defined.

(** * Further properties of the filter engine *)

Section QueryShape.

Implicit Types (s q : str) (c : ascii).

Lemma lstrip_nil s : PyStr.lstrip s = [] ↔ forallb PyStr.isspace s = true.
Proof.
  induction s as [|c s IH]; cbn; [done|].
  destruct (PyStr.isspace c); cbn; [done|]. split; discriminate.
Qed.

Lemma forallb_rev {A} (f : A → bool) (l : list A) : forallb f (rev l) = forallb f l.
Proof.
  induction l as [|x l IH]; [done|]. cbn.
  rewrite forallb_app, IH. cbn. rewrite andb_true_r. apply andb_comm.
Qed.

(** A query is blank for [strip] iff all its characters are whitespace. *)
Lemma strip_nil s : PyStr.strip s = [] ↔ forallb PyStr.isspace s = true.
Proof.
  split; [|apply strip_all_space].
  unfold PyStr.strip, PyStr.rstrip. intros H.
  apply (f_equal (@rev ascii)) in H. rewrite rev_involutive in H. cbn in H.
  apply lstrip_nil in H. rewrite forallb_rev in H.
  pose proof (lstrip_idem s) as Hfix. apply lstrip_fixed in Hfix.
  destruct (PyStr.lstrip s) as [|c l] eqn:E; [by apply lstrip_nil|].
  cbn in H. by rewrite Hfix in H.
Qed.

Lemma not_blank_app_r q1 q2 :
  PyStr.truthy (PyStr.strip q2) = true → PyStr.truthy (PyStr.strip (q1 ++ q2)) = true.
Proof.
  rewrite !truthy_true, !strip_nil, forallb_app. intros H [_ ?]%andb_true_iff. done.
Qed.

Lemma not_blank_cons c q :
  PyStr.truthy (PyStr.strip q) = true → PyStr.truthy (PyStr.strip (c :: q)) = true.
Proof. apply (not_blank_app_r [c]). Qed.

(** A space outside quotes ends the token before it. *)
Lemma split_terms_concat q1 q2 :
  in_quotes (scan_from scan_init q1) = false →
  split_terms (q1 ++ space_char :: q2) = split_terms q1 ++ split_terms q2.
Proof.
  intros Hq. unfold split_terms at 1 2. rewrite scan_from_app, scan_from_cons.
  destruct (scan_from scan_init q1) as [ts cur q]. cbn in Hq. subst q.
  rewrite scan_step_space. unfold scan_finish at 2. cbn [current_term scan_terms].
  destruct (PyStr.truthy cur) eqn:Hcur.
  - apply split_terms_after.
  - apply truthy_false in Hcur as ->. apply split_terms_after.
Qed.

Lemma classify_colon_free_from pre suf st :
  Forall (λ t, no_colon t = true) suf →
  fold_left (λ st i, snd (classify_body (pre ++ suf) i st))
            (seq (length pre) (length suf)) st =
  ParseState (final_terms st ++ suf) (column_searches st).
Proof.
  intros Hsuf. revert pre st. induction Hsuf as [|t suf Ht _ IH]; intros pre st.
  - cbn. rewrite app_nil_r. by destruct st.
  - cbn [length seq fold_left].
    replace (pre ++ t :: suf) with ((pre ++ [t]) ++ suf) by by rewrite <-app_assoc.
    replace (S (length pre)) with (length (pre ++ [t]))
      by (rewrite length_app; cbn; lia).
    rewrite IH. unfold classify_body.
    replace (nth (length pre) ((pre ++ [t]) ++ suf) []) with t
      by (rewrite <-app_assoc; cbn; by rewrite nth_middle).
    unfold no_colon in Ht. apply negb_true_iff in Ht. rewrite Ht.
    cbn [snd final_terms column_searches]. by rewrite <-app_assoc.
Qed.

(** A query without a colon is all free-text terms. *)
Lemma parse_colon_free q :
  PyStr.contains_char colon_char q = false →
  parse_search_terms q = (split_terms q, []).
Proof.
  intros Hq%contains_char_false. unfold parse_search_terms, classify_loop.
  pose proof (classify_colon_free_from [] (split_terms q) parse_init) as H.
  cbn [app length] in H. rewrite H; [done|]. clear H.
  eapply Forall_impl.
  - apply (Forall_split_terms (λ c, c ≠ colon_char)).
    apply Forall_forall. intros c Hc ->. done.
  - intros t Ht. unfold no_colon. apply negb_true_iff, contains_char_false.
    rewrite Forall_forall in Ht. intros Hin. by apply (Ht _ Hin).
Qed.

End QueryShape.

(** X5.  Free-text terms narrow one after the other: for two queries
    without colons (the first with its quotes closed), searching for both
    at once is searching the result of the first for the second, with the
    same outcome also when a pattern fails. *)
Theorem terms_filter_in_sequence `{E : RegexEngine} `{V : pandas} (d : frame)
  (q1 q2 : str)
  (Hc1 : PyStr.contains_char colon_char q1 = false)
  (Hc2 : PyStr.contains_char colon_char q2 = false)
  (Hquotes : in_quotes (scan_from scan_init q1) = false)
  (Hn1 : PyStr.truthy (PyStr.strip q1) = true)
  (Hn2 : PyStr.truthy (PyStr.strip q2) = true) :
  apply_search_filters d (q1 ++ space_char :: q2) =
  try d1 <- apply_search_filters d q1 in apply_search_filters d1 q2.
Proof.
  unfold apply_search_filters.
  rewrite (not_blank_app_r q1 (space_char :: q2)) by by apply not_blank_cons.
  rewrite Hn1, Hn2. cbn [negb].
  rewrite !parse_colon_free, split_terms_concat; try done.
  - unfold apply_parsed. cbn [for_each bind]. apply for_each_app.
  - apply contains_char_false. apply contains_char_false in Hc1, Hc2.
    rewrite elem_of_app, elem_of_cons. intros [?|[?|?]]; done.
Qed.

Lemma terms_filter_in_sequence_witness :
  apply_search_filters (E := py_re) (V := Pandas3) example_frame
    (py "fiction" ++ space_char :: py "quentin") =
  try d1 <- apply_search_filters (E := py_re) (V := Pandas3) example_frame
              (py "fiction") in
  apply_search_filters (E := py_re) (V := Pandas3) d1 (py "quentin").
Proof.
  apply (terms_filter_in_sequence (E := py_re) (V := Pandas3) example_frame
           (py "fiction") (py "quentin"));
    reflexivity.
Defined.

(** X6.  On a dataset without rows a query without column filters never
    raises, not even on a term that is no regular expression: the terms
    are not compiled, and the dataset is returned. *)
Theorem no_rows_no_error `{E : RegexEngine} `{V : pandas} (d : frame) (q : str)
  (Hrows : rows d = [])
  (Hcolon : PyStr.contains_char colon_char q = false) :
  apply_search_filters d q = Ok d.
Proof.
  unfold apply_search_filters. destruct (negb _); [done|].
  rewrite parse_colon_free by done. unfold apply_parsed. cbn [for_each bind].
  induction (split_terms q) as [|t ts IH]; cbn [for_each]; [done|].
  assert (term_filter_step d t = Ok d) as ->; [|done].
  unfold term_filter_step, term_filter_mask.
  destruct (PyStr.truthy t); [|done].
  assert (frame_is_empty d = true) as ->.
  { apply frame_is_empty_true. by left. }
  cbn. unfold boolean_index. rewrite Hrows. cbn. by rewrite <-Hrows, frame_eta.
Qed.

Lemma no_rows_no_error_witness :
  apply_search_filters (E := py_re) (V := Pandas3) (Frame example_columns [])
    (py "((") =
  Ok (Frame example_columns []).
Proof.
  apply (no_rows_no_error (E := py_re) (V := Pandas3) (Frame example_columns [])
           (py "(("));
    reflexivity.
Defined.

Section LetterCase.

Context `{V : pandas}.

Implicit Types (s t p : str) (c : ascii).

Lemma eqb_lower_quote c : Ascii.eqb (PyStr.lower_char c) quote_char = Ascii.eqb c quote_char.
Proof. destruct c as [[] [] [] [] [] [] [] []]; by vm_compute. Qed.

Lemma eqb_lower_space c : Ascii.eqb (PyStr.lower_char c) space_char = Ascii.eqb c space_char.
Proof. destruct c as [[] [] [] [] [] [] [] []]; by vm_compute. Qed.

Lemma eqb_lower_colon c : Ascii.eqb (PyStr.lower_char c) colon_char = Ascii.eqb c colon_char.
Proof. destruct c as [[] [] [] [] [] [] [] []]; by vm_compute. Qed.

Lemma is_special_lower_char c : PyRe.is_special (PyStr.lower_char c) = PyRe.is_special c.
Proof. destruct c as [[] [] [] [] [] [] [] []]; by vm_compute. Qed.

Lemma ordinary_lower s : ordinary (PyStr.lower s) = ordinary s.
Proof.
  unfold ordinary, PyStr.lower. induction s as [|c s IH]; [done|].
  cbn [map forallb]. by rewrite is_special_lower_char, IH.
Qed.

Lemma truthy_lower s : PyStr.truthy (PyStr.lower s) = PyStr.truthy s.
Proof. by destruct s. Qed.

Lemma lower_app s t : PyStr.lower (s ++ t) = PyStr.lower s ++ PyStr.lower t.
Proof. apply map_app. Qed.

Lemma scan_step_lower st c :
  scan_step (lower_scan_state st) (PyStr.lower_char c) =
  lower_scan_state (scan_step st c).
Proof.
  unfold scan_step, lower_scan_state. cbn [scan_terms current_term in_quotes].
  rewrite eqb_lower_quote, eqb_lower_space, truthy_lower.
  repeat case_match; cbn [scan_terms current_term in_quotes];
    by rewrite ?map_app, ?lower_app.
Qed.

Lemma split_terms_lower s :
  split_terms (PyStr.lower s) = map PyStr.lower (split_terms s).
Proof.
  unfold split_terms.
  assert (∀ st, scan_from (lower_scan_state st) (PyStr.lower s) =
                lower_scan_state (scan_from st s)) as H.
  { induction s as [|c s IH]; intros st; [done|].
    cbn [PyStr.lower map]. rewrite !scan_from_cons, scan_step_lower. apply IH. }
  change scan_init with (lower_scan_state scan_init) at 1. rewrite H.
  unfold scan_finish, lower_scan_state. cbn [scan_terms current_term].
  rewrite truthy_lower. case_match; by rewrite ?map_app.
Qed.

Lemma contains_colon_lower t :
  PyStr.contains_char colon_char (PyStr.lower t) = PyStr.contains_char colon_char t.
Proof.
  unfold PyStr.contains_char, PyStr.lower. induction t as [|c t IH]; [done|].
  cbn [map existsb].
  rewrite IH. f_equal. rewrite !(Ascii.eqb_sym colon_char). apply eqb_lower_colon.
Qed.

Lemma split_first_lower t :
  PyStr.split_first colon_char (PyStr.lower t) =
  (PyStr.lower (fst (PyStr.split_first colon_char t)),
   PyStr.lower (snd (PyStr.split_first colon_char t))).
Proof.
  induction t as [|c t IH]; [done|].
  cbn [PyStr.lower map PyStr.split_first]. rewrite eqb_lower_colon.
  destruct (Ascii.eqb c colon_char); [done|].
  fold (PyStr.lower t). rewrite IH. cbn [fst snd].
  by destruct (PyStr.split_first colon_char t).
Qed.

Lemma dict_set_lower_value (d : dict) k v :
  dict_set (map lower_value d) k (PyStr.lower v) = map lower_value (dict_set d k v).
Proof.
  induction d as [|[k' v'] d IH]; cbn; [done|].
  case_decide; cbn; [done|]. by rewrite IH.
Qed.

Lemma nth_lower i (terms : list str) :
  nth i (map PyStr.lower terms) [] = PyStr.lower (nth i terms []).
Proof. by rewrite <-(map_nth PyStr.lower). Qed.

Lemma classify_body_lower terms i st :
  snd (classify_body (map PyStr.lower terms) i (lower_parse_state st)) =
  lower_parse_state (snd (classify_body terms i st)).
Proof.
  unfold classify_body.
  rewrite !nth_lower, contains_colon_lower, split_first_lower, length_map.
  cbn [fst snd]. rewrite !strip_lower, truthy_lower, lower_idem.
  unfold lower_parse_state at 1. cbn [final_terms column_searches].
  repeat case_match; simplify_eq; cbn [snd];
    unfold lower_parse_state; cbn [final_terms column_searches];
    rewrite ?strip_lower, ?dict_set_lower_value, ?map_app; done.
Qed.

Lemma parse_search_terms_lower s :
  parse_search_terms (PyStr.lower s) =
  (map PyStr.lower (fst (parse_search_terms s)),
   map lower_value (snd (parse_search_terms s))).
Proof.
  unfold parse_search_terms, classify_loop. rewrite split_terms_lower, length_map.
  cbn [fst snd]. set (terms := split_terms s).
  assert (∀ l st,
    fold_left (λ st i, snd (classify_body (map PyStr.lower terms) i st)) l
              (lower_parse_state st) =
    lower_parse_state (fold_left (λ st i, snd (classify_body terms i st)) l st))
    as H.
  { induction l as [|i l IH]; intros st; cbn [fold_left]; [done|].
    by rewrite classify_body_lower, IH. }
  specialize (H (seq 0 (length terms)) parse_init).
  change (lower_parse_state parse_init) with parse_init in H. by rewrite H.
Qed.

Lemma eq_nocase_lower_l a b : PyStr.eq_nocase (PyStr.lower_char a) b = PyStr.eq_nocase a b.
Proof. unfold PyStr.eq_nocase. by rewrite lower_char_idem. Qed.

Lemma substring_nocase_lower p s :
  PyStr.substring_nocase (PyStr.lower p) s = PyStr.substring_nocase p s.
Proof.
  unfold PyStr.substring_nocase.
  assert (∀ s, PyStr.is_prefix_by PyStr.eq_nocase (PyStr.lower p) s =
               PyStr.is_prefix_by PyStr.eq_nocase p s) as Hp.
  { clear s. induction p as [|a p IH]; intros [|x s]; cbn; try done.
    by rewrite eq_nocase_lower_l, IH. }
  induction s as [|x s IH]; cbn [PyStr.occurs_by]; by rewrite Hp, ?IH.
Qed.

Lemma contains_nocase_lower p x :
  contains_nocase (PyStr.lower p) x = contains_nocase p x.
Proof. destruct x as [s|]; [apply substring_nocase_lower | done]. Qed.

Lemma forallb_map_ext {A B} (f : B → bool) (g : A → bool) (h : A → B) (l : list A) :
  (∀ x, f (h x) = g x) → forallb f (map h l) = forallb g l.
Proof. intros H. induction l as [|x l IH]; [done|]. cbn. by rewrite H, IH. Qed.

Lemma existsb_pointwise {A} (f g : A → bool) (l : list A) :
  (∀ x, f x = g x) → existsb f l = existsb g l.
Proof. intros H. induction l as [|x l IH]; [done|]. cbn. by rewrite H, IH. Qed.

Lemma spec_filter_lower d terms cs :
  spec_filter d (map PyStr.lower terms) (map lower_value cs) = spec_filter d terms cs.
Proof.
  unfold spec_filter. f_equal. apply filter_ext. intros r.
  unfold spec_survives. f_equal.
  - apply forallb_map_ext. intros [k v]. unfold spec_survives_filter, lower_value.
    cbn [fst snd]. case_match; [apply contains_nocase_lower | done].
  - apply forallb_map_ext. intros t. unfold spec_survives_term.
    rewrite truthy_lower. f_equal. apply existsb_pointwise. intros j.
    apply contains_nocase_lower.
Qed.

Lemma apply_search_filters_lower d q :
  NoDup (columns d) → ordinary q = true →
  apply_search_filters (E := py_re) d (PyStr.lower q) =
  apply_search_filters (E := py_re) d q.
Proof.
  intros Hnd Hq.
  rewrite !apply_search_filters_ordinary by by rewrite ?ordinary_lower.
  rewrite strip_lower, truthy_lower, parse_search_terms_lower. cbn [fst snd].
  by rewrite spec_filter_lower.
Qed.

End LetterCase.

(** X7.  For a query and a dataset over the characters U+0000..U+00FF,
    the letter case of the query does not matter: on a dataset with
    distinct column labels, two queries without special characters of
    regular expressions that are equal after [lower()] give the same
    result with Python's [re]. *)
Theorem letter_case_is_ignored `{V : pandas} (d : frame) (q1 q2 : str)
  (Hcols : NoDup (columns d))
  (Hq1 : ordinary q1 = true) (Hq2 : ordinary q2 = true)
  (Hcase : PyStr.lower q1 = PyStr.lower q2) :
  apply_search_filters (E := py_re) d q1 = apply_search_filters (E := py_re) d q2.
Proof.
  rewrite <-(apply_search_filters_lower d q1), <-(apply_search_filters_lower d q2)
    by done.
  by rewrite Hcase.
Qed.

Lemma letter_case_is_ignored_witness :
  apply_search_filters (E := py_re) (V := Pandas3) example_frame
    (py "Director:TARANTINO pulp") =
  apply_search_filters (E := py_re) (V := Pandas3) example_frame
    (py "director:Tarantino PULP").
Proof.
  apply (letter_case_is_ignored (V := Pandas3) example_frame
           (py "Director:TARANTINO pulp") (py "director:Tarantino PULP"));
    [apply (bool_decide_unpack _); by vm_compute | reflexivity..].
Defined.

(** X8.  The order of the terms and of the column filters does not
    matter: on patterns without special characters (and distinct column
    labels) any rearrangement of the terms and of the filters gives the
    same result. *)
Theorem order_of_terms_is_irrelevant `{V : pandas} (d : frame)
  (terms terms2 : list str)
  (cs cs2 : dict)
  (Hcols : NoDup (columns d))
  (Hterms : forallb ordinary terms = true)
  (Hvalues : forallb (λ kv, ordinary (snd kv)) cs = true)
  (Hpt : terms ≡ₚ terms2) (Hpc : cs ≡ₚ cs2) :
  apply_parsed (E := py_re) d terms2 cs2 = apply_parsed (E := py_re) d terms cs.
Proof.
  assert (∀ {A} (f : A → bool) l l2, l ≡ₚ l2 → forallb f l = forallb f l2) as Hperm.
  { intros A f l l2 Hp. induction Hp as [|x l l2 _ IH|x y l|l l2 l3 _ IH1 _ IH2]; cbn.
    - done.
    - by rewrite IH.
    - by rewrite !andb_assoc, (andb_comm (f y)).
    - by rewrite IH1. }
  rewrite !apply_parsed_ordinary; try done.
  - f_equal. unfold spec_filter. f_equal. apply filter_ext. intros r.
    unfold spec_survives. f_equal; symmetry; by apply Hperm.
  - apply Forall_forall. intros t Ht. rewrite forallb_forall in Hterms.
    by apply Hterms, list_elem_of_In.
  - apply Forall_forall. intros t Ht. rewrite forallb_forall in Hvalues.
    by apply Hvalues, list_elem_of_In.
  - apply Forall_forall. intros t Ht. rewrite forallb_forall in Hterms.
    apply Hterms, list_elem_of_In. by rewrite Hpt.
  - apply Forall_forall. intros t Ht. rewrite forallb_forall in Hvalues.
    apply Hvalues, list_elem_of_In. by rewrite Hpc.
Qed.

Lemma order_of_terms_is_irrelevant_witness :
  apply_parsed (E := py_re) (V := Pandas3) example_frame [py "pulp"; py "fiction"]
    [(py "type", py "movie"); (py "director", py "quentin")] =
  apply_parsed (E := py_re) (V := Pandas3) example_frame [py "fiction"; py "pulp"]
    [(py "director", py "quentin"); (py "type", py "movie")].
Proof.
  apply (order_of_terms_is_irrelevant (V := Pandas3) example_frame
           [py "fiction"; py "pulp"] [py "pulp"; py "fiction"]
           [(py "director", py "quentin"); (py "type", py "movie")]
           [(py "type", py "movie"); (py "director", py "quentin")]).
  - apply (bool_decide_unpack _). by vm_compute.
  - reflexivity.
  - reflexivity.
  - apply perm_swap.
  - apply perm_swap.
Defined.

Section SplitFilter.

Implicit Types (k v : str).

(** A key, a colon, a space and a value: two tokens, of which the second
    is taken as the value and is classified again as a term. *)
Lemma parse_key_space_value k v :
  quote_char ∉ k → space_char ∉ k → colon_char ∉ k →
  quote_char ∉ v → space_char ∉ v → colon_char ∉ v → v ≠ [] →
  parse_search_terms (k ++ colon_char :: space_char :: v) =
  ([v], [(PyStr.lower (PyStr.strip k), PyStr.strip v)]).
Proof.
  intros Hkq Hks Hkc Hvq Hvs Hvc Hne. unfold parse_search_terms.
  replace (k ++ colon_char :: space_char :: v)
    with ((k ++ [colon_char]) ++ space_char :: v) by by rewrite <-app_assoc.
  rewrite split_terms_word_space, split_terms_single; try done.
  - unfold classify_loop. cbn [length seq fold_left]. unfold classify_body.
    cbn [nth]. rewrite contains_colon_middle, split_first_first_colon by done.
    cbn [fst snd length]. change (0 + 1 <? 2) with true.
    change (PyStr.truthy (PyStr.strip [])) with false. cbn [negb nth Nat.add].
    apply contains_char_false in Hvc. rewrite Hvc. done.
  - rewrite elem_of_app, list_elem_of_singleton. by intros [?|?].
  - rewrite elem_of_app, list_elem_of_singleton. by intros [?|?].
  - by destruct k.
Qed.

Lemma not_blank_with c s :
  PyStr.isspace c = false → c ∈ s → PyStr.truthy (PyStr.strip s) = true.
Proof.
  intros Hc Hin. apply truthy_true. rewrite strip_nil. intros Hall.
  rewrite forallb_forall in Hall. apply list_elem_of_In in Hin.
  by rewrite (Hall c Hin) in Hc.
Qed.

Lemma find_column_lt col labels j :
  find_column col labels = Some j → j < length labels.
Proof.
  revert j. induction labels as [|l labels IH]; intros j; cbn; [done|].
  case_bool_decide; [intros [= <-]; lia|].
  destruct (find_column col labels) as [j'|]; cbn; [|done].
  intros [= <-]. specialize (IH j' eq_refl). lia.
Qed.

Lemma find_column_None col labels :
  find_column col labels = None ↔
  Forall (λ c, PyStr.lower c ≠ PyStr.lower col) labels.
Proof.
  induction labels as [|l labels IH]; cbn; [by split; [constructor|]|].
  case_bool_decide as Hl.
  - split; [done|]. intros [? _]%Forall_cons. done.
  - destruct (find_column col labels); cbn.
    + split; [done|]. intros [_ H]%Forall_cons. by apply IH in H.
    + split; [|done]. intros _. constructor; [done | by apply IH].
Qed.

Lemma substring_nocase_nil s : PyStr.substring_nocase [] s = true.
Proof. by destruct s. Qed.

Lemma has_text_pandas2 (x : cell) : has_text (V := Pandas2) x = true.
Proof. by destruct x. Qed.

Lemma has_text_present `{V : pandas} (x : cell) : x ≠ VNaN → has_text x = true.
Proof. by destruct x. Qed.

End SplitFilter.

(** X9.  A filter with an empty value narrows nothing but the missing
    values.  On a dataset with distinct column labels the query [k:]
    returns the dataset when [k] names no column; when it names one, the
    rows that have a string in that column after [astype(str)] are
    returned.  Up to pandas 2 that is every row, and so it is when the
    column has no missing value; from pandas 3 on the rows with a missing
    value in the column are left out. *)
Theorem empty_filter_value_drops_only_missing `{V : pandas} (d : frame)
  (k : str)
  (Hcols : NoDup (columns d))
  (Hkq : PyStr.contains_char quote_char k = false)
  (Hks : PyStr.contains_char space_char k = false)
  (Hkc : PyStr.contains_char colon_char k = false) :
  apply_search_filters (E := py_re) d (k ++ [colon_char]) =
  Ok (match find_column (PyStr.lower (PyStr.strip k)) (columns d) with
      | Some j =>
          Frame (columns d) (List.filter (λ r, has_text (cell_at j r)) (rows d))
      | None => d
      end)
  ∧ (V = Pandas2
     ∨ (∀ j r, find_column (PyStr.lower (PyStr.strip k)) (columns d) = Some j →
               r ∈ rows d → cell_at j r ≠ VNaN) →
     apply_search_filters (E := py_re) d (k ++ [colon_char]) = Ok d).
Proof.
  apply contains_char_false in Hkq, Hks, Hkc.
  assert (apply_search_filters (E := py_re) d (k ++ [colon_char]) =
          Ok (match find_column (PyStr.lower (PyStr.strip k)) (columns d) with
              | Some j =>
                  Frame (columns d)
                        (List.filter (λ r, has_text (cell_at j r)) (rows d))
              | None => d
              end)) as Hrun.
  { unfold apply_search_filters.
    rewrite (not_blank_with colon_char) by (done || (apply elem_of_app; right; left)).
    cbn [negb]. rewrite parse_filter_token by (done || apply not_elem_of_nil).
    rewrite apply_parsed_ordinary by (done || by repeat constructor).
    f_equal. unfold spec_filter, spec_survives, spec_survives_filter.
    cbn [forallb fst snd].
    destruct (find_column _ (columns d)) as [j|].
    - f_equal. apply filter_ext. intros r. rewrite !andb_true_r.
      unfold has_text. change (PyStr.strip []) with (@nil ascii).
      destruct (astype_str (cell_at j r)) as [s|]; [apply substring_nocase_nil | done].
    - rewrite bfilter_true. apply frame_eta. }
  split; [done|]. intros Hall. rewrite Hrun.
  destruct (find_column _ (columns d)) as [j|]; [|done].
  rewrite bfilter_all, frame_eta; [done|]. intros r Hr.
  destruct Hall as [->|Hall]; [apply has_text_pandas2|].
  by apply has_text_present, (Hall j).
Qed.

Lemma empty_filter_value_drops_only_missing_witness :
  apply_search_filters (E := py_re) (V := Pandas3) example_frame
    (py "director" ++ [colon_char]) =
  Ok (match find_column (PyStr.lower (PyStr.strip (py "director")))
              (columns example_frame) with
      | Some j =>
          Frame (columns example_frame)
                (List.filter (λ r, has_text (V := Pandas3) (cell_at j r))
                             (rows example_frame))
      | None => example_frame
      end)
  ∧ (Pandas3 = Pandas2
     ∨ (∀ j r, find_column (PyStr.lower (PyStr.strip (py "director")))
                 (columns example_frame) = Some j →
               r ∈ rows example_frame → cell_at j r ≠ VNaN) →
     apply_search_filters (E := py_re) (V := Pandas3) example_frame
       (py "director" ++ [colon_char]) = Ok example_frame).
Proof.
  apply (empty_filter_value_drops_only_missing (V := Pandas3) example_frame
           (py "director"));
    [apply (bool_decide_unpack _); by vm_compute | reflexivity..].
Defined.

(** X10.  When the key names a column, writing a space after the colon
    changes nothing: the value token is also applied as a free-text term,
    but every row that passes the column filter passes that term. *)
Theorem space_after_colon_with_known_column `{V : pandas} (d : frame)
  (k v : str) (j : nat)
  (Hcols : NoDup (columns d))
  (Hkq : PyStr.contains_char quote_char k = false)
  (Hks : PyStr.contains_char space_char k = false)
  (Hkc : PyStr.contains_char colon_char k = false)
  (Hvq : PyStr.contains_char quote_char v = false)
  (Hvs : PyStr.contains_char space_char v = false)
  (Hvc : PyStr.contains_char colon_char v = false)
  (Hv : PyStr.strip v = v) (Hne : v ≠ []) (Hord : ordinary v = true)
  (Hcol : find_column (PyStr.lower (PyStr.strip k)) (columns d) = Some j) :
  apply_search_filters (E := py_re) d (k ++ colon_char :: space_char :: v) =
  apply_search_filters (E := py_re) d (k ++ colon_char :: v).
Proof.
  apply contains_char_false in Hkq, Hks, Hkc, Hvq, Hvs, Hvc.
  unfold apply_search_filters.
  rewrite !(not_blank_with colon_char) by (done || (apply elem_of_app; right; left)).
  cbn [negb]. rewrite parse_key_space_value, parse_filter_token by done.
  rewrite Hv, !apply_parsed_ordinary by (done || by repeat constructor).
  f_equal. unfold spec_filter. f_equal. apply filter_ext. intros r.
  unfold spec_survives, spec_survives_filter, spec_survives_term.
  cbn [forallb fst snd]. rewrite Hcol, !andb_true_r.
  destruct (contains_nocase v (astype_str (cell_at j r))) eqn:Hm; [|done].
  cbn [andb]. apply orb_true_iff. right. apply existsb_exists. exists j.
  split; [|done]. apply in_seq. apply find_column_lt in Hcol. lia.
Qed.

Lemma space_after_colon_with_known_column_witness :
  apply_search_filters (E := py_re) (V := Pandas3) example_frame
    (py "type" ++ colon_char :: space_char :: py "movie") =
  apply_search_filters (E := py_re) (V := Pandas3) example_frame
    (py "type" ++ colon_char :: py "movie").
Proof.
  apply (space_after_colon_with_known_column (V := Pandas3) example_frame
           (py "type") (py "movie") 1);
    [apply (bool_decide_unpack _); by vm_compute | try reflexivity..].
  discriminate.
Defined.

(** X11.  When the key names no column, [k: v] is the search for [v] in
    all columns: the filter is skipped, and the value token, which is not
    skipped, is applied as a free-text term. *)
Theorem space_after_colon_with_unknown_column `{E : RegexEngine} `{V : pandas}
  (d : frame)
  (k v : str)
  (Hkq : PyStr.contains_char quote_char k = false)
  (Hks : PyStr.contains_char space_char k = false)
  (Hkc : PyStr.contains_char colon_char k = false)
  (Hvq : PyStr.contains_char quote_char v = false)
  (Hvs : PyStr.contains_char space_char v = false)
  (Hvc : PyStr.contains_char colon_char v = false)
  (Hv : PyStr.truthy (PyStr.strip v) = true)
  (Hcol : Forall (λ c, PyStr.lower c ≠ PyStr.lower (PyStr.strip k)) (columns d)) :
  apply_search_filters d (k ++ colon_char :: space_char :: v) =
  apply_search_filters d v.
Proof.
  assert (v ≠ []) as Hne.
  { intros ->. by vm_compute in Hv. }
  unfold apply_search_filters. rewrite Hv. cbn [negb].
  rewrite (parse_colon_free v) by done.
  apply contains_char_false in Hkq, Hks, Hkc, Hvq, Hvs, Hvc.
  rewrite (not_blank_with colon_char) by (done || (apply elem_of_app; right; left)).
  cbn [negb]. rewrite parse_key_space_value, split_terms_single by done.
  unfold apply_parsed. cbn [for_each bind].
  rewrite column_filter_step_unknown; [done|]. by rewrite lower_idem.
Qed.

Lemma space_after_colon_with_unknown_column_witness :
  apply_search_filters (E := py_re) (V := Pandas3) example_frame
    (py "genre" ++ colon_char :: space_char :: py "dark") =
  apply_search_filters (E := py_re) (V := Pandas3) example_frame (py "dark").
Proof.
  apply (space_after_colon_with_unknown_column (E := py_re) (V := Pandas3)
           example_frame (py "genre") (py "dark")); try reflexivity.
  repeat constructor; by vm_compute.
Defined.

(** * The text of the word cloud *)

Section Words.

Implicit Types (s t w cur : str) (c : ascii) (l ws : list str).

Lemma join_cons sep x l :
  l ≠ [] → PyText.join sep (x :: l) = x ++ sep ++ PyText.join sep l.
Proof. by destruct l. Qed.

Lemma split_from_app_space cur s1 s2 :
  PyText.split_from cur (s1 ++ space_char :: s2) =
  PyText.split_from cur s1 ++ PyText.split s2.
Proof.
  revert cur. induction s1 as [|c s1 IH]; intros cur; cbn.
  - change (PyStr.isspace space_char) with true. cbn.
    by destruct (PyStr.truthy cur).
  - destruct (PyStr.isspace c); [|apply IH].
    destruct (PyStr.truthy cur); cbn; by rewrite IH.
Qed.

(** Splitting a text joined with spaces gives the words of the pieces:
    no word runs across two pieces. *)
Lemma split_join l :
  PyText.split (PyText.join (py " ") l) = concat (map PyText.split l).
Proof.
  induction l as [|x l IH]; [done|].
  destruct l as [|y l]; [cbn; by rewrite app_nil_r|].
  rewrite join_cons by done.
  change (concat (map PyText.split (x :: y :: l)))
    with (PyText.split x ++ concat (map PyText.split (y :: l))).
  rewrite <-IH. apply split_from_app_space.
Qed.

Lemma remove_special_join l :
  PyText.remove_special (PyText.join (py " ") l) =
  PyText.join (py " ") (map PyText.remove_special l).
Proof.
  induction l as [|x l IH]; [done|].
  destruct l as [|y l]; [done|].
  rewrite join_cons by done.
  change (map PyText.remove_special (x :: y :: l))
    with (PyText.remove_special x :: map PyText.remove_special (y :: l)).
  rewrite (join_cons _ (PyText.remove_special x)) by done.
  rewrite <-IH. unfold PyText.remove_special. by rewrite !List.filter_app.
Qed.

Lemma lower_join l :
  PyStr.lower (PyText.join (py " ") l) = PyText.join (py " ") (map PyStr.lower l).
Proof.
  induction l as [|x l IH]; [done|].
  destruct l as [|y l]; [done|].
  rewrite join_cons by done.
  change (map PyStr.lower (x :: y :: l))
    with (PyStr.lower x :: map PyStr.lower (y :: l)).
  rewrite (join_cons _ (PyStr.lower x)) by done.
  by rewrite !lower_app, IH.
Qed.

Lemma bfilter_concat {A} (f : A → bool) (ls : list (list A)) :
  List.filter f (concat ls) = concat (map (List.filter f) ls).
Proof.
  induction ls as [|l ls IH]; [done|]. cbn. by rewrite List.filter_app, IH.
Qed.

(** The words of the text are the words of the titles, in order. *)
Lemma word_cloud_words l :
  List.filter uncommon
    (PyText.split (PyStr.lower (PyText.remove_special (PyText.join (py " ") l)))) =
  concat (map title_words l).
Proof.
  rewrite remove_special_join, lower_join, split_join, bfilter_concat.
  rewrite !map_map. done.
Qed.

(** What [split] returns: words that are not empty and hold no
    whitespace, made of the characters of the text. *)
Lemma split_from_words (P : ascii → Prop) cur s :
  Forall P cur → Forall P s → Forall (λ c, PyStr.isspace c = false) cur →
  Forall (λ w, w ≠ [] ∧ Forall P w ∧ Forall (λ c, PyStr.isspace c = false) w)
         (PyText.split_from cur s).
Proof.
  intros Hcur Hs. revert cur Hcur. induction Hs as [|c s Hc Hs IH]; intros cur Hcur Hns; cbn.
  - destruct cur; cbn; [constructor|]. by constructor.
  - destruct (PyStr.isspace c) eqn:Hsp.
    + destruct cur as [|x cur]; cbn.
      * apply IH; constructor.
      * constructor; [done|]. apply IH; constructor.
    + apply IH; apply Forall_app; split; try done; by repeat constructor.
Qed.

Lemma split_word w :
  w ≠ [] → Forall (λ c, PyStr.isspace c = false) w → PyText.split w = [w].
Proof.
  intros Hne Hw. unfold PyText.split.
  assert (∀ cur, PyText.split_from cur w =
                 if PyStr.truthy (cur ++ w) then [cur ++ w] else []) as H.
  { induction Hw as [|c w Hc Hw IH]; intros cur; cbn.
    - by rewrite app_nil_r.
    - rewrite Hc. destruct w as [|y w].
      + cbn. by destruct cur.
      + rewrite IH by done. by rewrite <-app_assoc. }
  rewrite H. cbn. by destruct w.
Qed.

Lemma split_join_words ws :
  Forall (λ w, w ≠ [] ∧ Forall (λ c, PyStr.isspace c = false) w) ws →
  PyText.split (PyText.join (py " ") ws) = ws.
Proof.
  intros H. rewrite split_join. induction H as [|w ws [Hne Hw] _ IH]; [done|].
  cbn. by rewrite split_word, IH.
Qed.

Lemma is_word_char_lower c :
  PyText.is_word_char (PyStr.lower_char c) = PyText.is_word_char c.
Proof. destruct c as [[] [] [] [] [] [] [] []]; by vm_compute. Qed.

Lemma word_char_not_space c :
  PyText.is_word_char c = true → PyStr.isspace c = false.
Proof. destruct c as [[] [] [] [] [] [] [] []]; by vm_compute. Qed.

(** The words of a title: not empty, in lower case, made of word
    characters, and none of them a common word. *)
Lemma title_words_spec title :
  Forall (λ w, w ≠ [] ∧ forallb PyText.is_word_char w = true
               ∧ PyStr.lower w = w ∧ uncommon w = true) (title_words title).
Proof.
  unfold title_words. apply Forall_forall. intros w Hw.
  apply elem_of_bfilter in Hw as [Hw Hun].
  assert (Forall (λ w, w ≠ []
            ∧ Forall (λ c, PyStr.lower_char c = c ∧ PyText.is_kept c = true) w
            ∧ Forall (λ c, PyStr.isspace c = false) w)
          (PyText.split (PyStr.lower (PyText.remove_special title))))
    as H.
  { apply split_from_words; [constructor | | constructor].
    unfold PyStr.lower, PyText.remove_special. apply Forall_forall.
    intros c (x & -> & Hx)%list_elem_of_fmap. split; [apply lower_char_idem|].
    apply elem_of_bfilter in Hx as [_ Hx]. unfold PyText.is_kept in *.
    by rewrite is_word_char_lower, isspace_lower_char. }
  rewrite Forall_forall in H. destruct (H w Hw) as (Hne & Hchars & Hns).
  split; [done|]. split; [|split; [|done]].
  - apply forallb_forall. intros c Hc%list_elem_of_In.
    rewrite Forall_forall in Hchars, Hns.
    destruct (Hchars c Hc) as [_ Hk]. specialize (Hns c Hc).
    unfold PyText.is_kept in Hk. rewrite Hns, orb_false_r in Hk. done.
  - unfold PyStr.lower. rewrite <-(map_id w) at 2. apply map_ext_Forall.
    eapply Forall_impl; [exact Hchars|]. by intros c [? _].
Qed.

End Words.

Section WordCloudText.

Implicit Types (texts : list str) (column : list (option str)).

Lemma clean_text_words texts :
  clean_text (PyText.join (py " ") texts) =
  PyText.join (py " ") (concat (map title_words texts)).
Proof. unfold clean_text. cbn zeta. by rewrite word_cloud_words. Qed.

Lemma all_title_words_spec texts :
  Forall (λ w, w ≠ [] ∧ forallb PyText.is_word_char w = true
               ∧ PyStr.lower w = w ∧ uncommon w = true)
         (concat (map title_words texts)).
Proof.
  apply Forall_concat, Forall_forall. intros ws (t & -> & _)%list_elem_of_fmap.
  apply title_words_spec.
Qed.

Lemma word_chars_no_space w :
  forallb PyText.is_word_char w = true → Forall (λ c, PyStr.isspace c = false) w.
Proof.
  rewrite forallb_forall, Forall_forall. intros H c Hc%list_elem_of_In.
  by apply word_char_not_space, H.
Qed.

Lemma split_clean_text texts :
  PyText.split (clean_text (PyText.join (py " ") texts)) =
  concat (map title_words texts).
Proof.
  rewrite clean_text_words. apply split_join_words.
  eapply Forall_impl; [apply all_title_words_spec|].
  intros w (Hne & Hw & _). split; [done|]. by apply word_chars_no_space.
Qed.

Lemma remove_special_word w :
  forallb PyText.is_word_char w = true → PyText.remove_special w = w.
Proof.
  intros H. unfold PyText.remove_special. apply bfilter_all. intros c Hc.
  rewrite forallb_forall in H. unfold PyText.is_kept.
  by rewrite (H c) by by apply list_elem_of_In.
Qed.

(** Cleaning a cleaned text changes nothing. *)
Lemma clean_text_idem texts :
  clean_text (clean_text (PyText.join (py " ") texts)) =
  clean_text (PyText.join (py " ") texts).
Proof.
  rewrite (clean_text_words texts).
  pose proof (all_title_words_spec texts) as Hws.
  set (ws := concat (map title_words texts)) in *.
  unfold clean_text. cbn zeta. f_equal.
  rewrite remove_special_join, lower_join, map_map.
  assert (map (λ w, PyStr.lower (PyText.remove_special w)) ws = ws) as ->.
  { rewrite <-(map_id ws) at 2. apply map_ext_Forall.
    eapply Forall_impl; [exact Hws|]. intros w (_ & Hw & Hl & _).
    by rewrite remove_special_word. }
  rewrite split_join_words.
  - apply bfilter_all. intros w Hw. rewrite Forall_forall in Hws.
    by destruct (Hws w Hw) as (_ & _ & _ & ?).
  - eapply Forall_impl; [exact Hws|]. intros w (? & ? & _).
    split; [done | by apply word_chars_no_space].
Qed.

(** [join] reads every item, or raises on one that is missing. *)
Lemma str_items_spec column :
  match str_items column with
  | Ok items => column = map Some items
  | Raise e => e = TypeError ∧ None ∈ column
  end.
Proof.
  induction column as [|[s|] column IH]; cbn [str_items]; [done| |].
  - destruct (str_items column) as [items|e]; cbn [bind].
    + by rewrite IH.
    + destruct IH as [-> ?]. split; [done | by right].
  - split; [done | left].
Qed.

Lemma str_items_missing column : None ∈ column → str_items column = Raise TypeError.
Proof.
  intros Hin. pose proof (str_items_spec column) as H.
  destruct (str_items column) as [items|e].
  - exfalso. rewrite H in Hin. by apply list_elem_of_fmap in Hin as (? & ? & _).
  - by destruct H as [-> _].
Qed.

(** Up to pandas 2 every title has a text, [nan] for a missing one. *)
Lemma title_texts_pandas2 (titles : list cell) :
  ∃ texts, title_texts (V := Pandas2) titles = Ok texts
           ∧ (VNaN ∈ titles → py "nan" ∈ texts).
Proof.
  unfold title_texts. induction titles as [|v titles (texts & Htexts & Hnan)].
  - exists []. split; [done|]. by intros ?%elem_of_nil.
  - cbn [map str_items]. destruct v as [s|z|f|]; cbn [astype_str];
      rewrite Htexts; cbn [bind]; eexists; (split; [reflexivity|]);
      intros [?|?]%elem_of_cons; try done; try (right; by apply Hnan).
    left.
Qed.

Lemma title_texts_pandas3 (titles : list cell) :
  VNaN ∈ titles → title_texts (V := Pandas3) titles = Raise TypeError.
Proof.
  intros Hin. apply str_items_missing.
  by apply (list_elem_of_fmap_2 (astype_str (V := Pandas3))) in Hin.
Qed.

End WordCloudText.


(** X13.  For titles over the characters U+0000..U+00FF, every word of
    the text is in lower case, is made of word characters only (no
    punctuation, no whitespace), is not empty and is none of the common
    words. *)
Theorem word_cloud_words_are_clean `{V : pandas} (titles : list cell) (text : str)
  (Htext : word_cloud_text titles = Ok text) :
  Forall (λ w, w ≠ [] ∧ forallb PyText.is_word_char w = true
               ∧ PyStr.lower w = w ∧ w ∉ common_words)
         (PyText.split text).
Proof.
  unfold word_cloud_text in Htext.
  destruct (title_texts titles) as [texts|e]; [|done].
  cbn [bind] in Htext. injection Htext as <-.
  rewrite split_clean_text.
  eapply Forall_impl; [apply all_title_words_spec|].
  intros w (? & ? & ? & Hun). repeat split; try done.
  unfold uncommon in Hun. apply negb_true_iff in Hun.
  by apply bool_decide_eq_false in Hun.
Qed.

Lemma word_cloud_words_are_clean_witness :
  Forall (λ w, w ≠ [] ∧ forallb PyText.is_word_char w = true
               ∧ PyStr.lower w = w ∧ w ∉ common_words)
         (PyText.split (py "lord rings return king")).
Proof.
  apply (word_cloud_words_are_clean (V := Pandas3)
           [VStr (py "The Lord of the Rings:"); VStr (py "The Return of the King!")]
           (py "lord rings return king")).
  reflexivity.
Defined.

(** X14.  For titles over the characters U+0000..U+00FF, cleaning is
    idempotent: the text of the word cloud, taken as a single title, is
    cleaned to itself. *)
Theorem word_cloud_text_idempotent `{V : pandas} (titles : list cell) (text : str)
  (Htext : word_cloud_text titles = Ok text) :
  word_cloud_text [VStr text] = Ok text.
Proof.
  unfold word_cloud_text in *.
  destruct (title_texts titles) as [texts|e]; [|done].
  cbn [bind] in Htext. injection Htext as <-.
  cbn [title_texts map astype_str str_items bind PyText.join].
  by rewrite clean_text_idem.
Qed.

Lemma word_cloud_text_idempotent_witness :
  word_cloud_text (V := Pandas3) [VStr (py "lord rings return king")]
  = Ok (py "lord rings return king").
Proof.
  apply (word_cloud_text_idempotent (V := Pandas3)
           [VStr (py "The Lord of the Rings:"); VStr (py "The Return of the King!")]
           (py "lord rings return king")).
  reflexivity.
Defined.

(** X15.  A missing title is not passed over.  Up to pandas 2 it is
    rendered [nan], and the word [nan] enters the text of the word cloud;
    from pandas 3 on it stays missing, and the [join] of the titles
    raises [TypeError]. *)
Theorem missing_title_by_release (titles : list cell) (Hmiss : VNaN ∈ titles) :
  (∃ text, word_cloud_text (V := Pandas2) titles = Ok text
           ∧ py "nan" ∈ PyText.split text)
  ∧ word_cloud_text (V := Pandas3) titles = Raise TypeError.
Proof.
  split.
  - destruct (title_texts_pandas2 titles) as (texts & Htexts & Hnan).
    unfold word_cloud_text. rewrite Htexts. cbn [bind]. eexists. split; [done|].
    rewrite split_clean_text. apply list_elem_of_In, in_concat.
    exists (title_words (py "nan")). split.
    + apply list_elem_of_In. apply (list_elem_of_fmap_2 title_words). by apply Hnan.
    + vm_compute. by left.
  - unfold word_cloud_text. by rewrite title_texts_pandas3.
Qed.

Lemma missing_title_by_release_witness :
  (∃ text, word_cloud_text (V := Pandas2) [VStr (py "Dark"); VNaN] = Ok text
           ∧ py "nan" ∈ PyText.split text)
  ∧ word_cloud_text (V := Pandas3) [VStr (py "Dark"); VNaN] = Raise TypeError.
Proof. apply (missing_title_by_release [VStr (py "Dark"); VNaN]). right; left. Defined.

(** * The data page *)

Section DataPage.

Context `{E : RegexEngine} `{V : pandas}.

Lemma select_columns_rows df labels :
  length (rows (select_columns df labels)) = length (rows df).
Proof. unfold select_columns. cbn. apply length_map. Qed.

Lemma select_columns_empty df labels :
  frame_is_empty (select_columns df labels) = true ↔ rows df = [] ∨ labels = [].
Proof.
  rewrite frame_is_empty_true. unfold select_columns. cbn [rows columns].
  split; (intros [H|H]; [left | by right]).
  - by apply map_eq_nil in H.
  - by rewrite H.
Qed.

(** The search of the page: the filter on the whole dataset, or the
    dataset itself when the search box is empty. *)
Lemma data_page_searched data checkbox q :
  NoDup (columns data) →
  data_page data checkbox q =
  match (if PyStr.truthy q then apply_search_filters data q else Ok data) with
  | Raise e => FilterRaised e
  | Ok d =>
      if bool_decide (rows d = [] ∨ List.filter checkbox (columns data) = [])
      then Rendered [WarningBox (py "No matches found")]
      else Rendered [Dataframe (select_columns d (List.filter checkbox (columns data)));
                     Write (found_text (length (rows d)))]
  end.
Proof.
  intros Hnd. unfold data_page. rewrite bool_decide_eq_true_2 by done.
  destruct (if PyStr.truthy q then _ else _) as [d|e]; [|done].
  rewrite select_columns_rows.
  destruct (frame_is_empty (select_columns d _)) eqn:Hemp; cbn [negb].
  - apply select_columns_empty in Hemp. by rewrite bool_decide_eq_true_2.
  - rewrite bool_decide_eq_false_2; [done|]. intros H.
    apply select_columns_empty in H. congruence.
Qed.

End DataPage.

(** X16.  The page never shows an empty table: when it renders, it shows
    either the warning alone, or a table with at least one row and one
    column, whose columns are the checked ones in the order of the
    dataset, with the number of its rows as the number of matches.  With
    no column checked it is the warning, whatever the search finds. *)
Theorem data_page_never_shows_empty_table `{E : RegexEngine} `{V : pandas}
  (data : frame)
  (checkbox : str → bool) (q : str) (elements : list element)
  (Hpage : data_page data checkbox q = Rendered elements) :
  (elements = [WarningBox (py "No matches found")]
   ∨ ∃ table, elements = [Dataframe table; Write (found_text (length (rows table)))]
              ∧ rows table ≠ [] ∧ columns table ≠ []
              ∧ columns table = List.filter checkbox (columns data))
  ∧ (List.filter checkbox (columns data) = [] →
     elements = [WarningBox (py "No matches found")]).
Proof.
  unfold data_page in Hpage. case_bool_decide as Hnd; [|done].
  destruct (if PyStr.truthy q then _ else _) as [d|e]; [|done].
  destruct (frame_is_empty (select_columns d _)) eqn:Hemp; cbn [negb] in Hpage;
    injection Hpage as <-.
  - split; [by left | done].
  - split.
    + right. exists (select_columns d (List.filter checkbox (columns data))).
      split; [reflexivity|].
      unfold frame_is_empty in Hemp.
      destruct (rows (select_columns d _)) eqn:Hr; [done|].
      split; [done|]. cbn [select_columns columns] in *.
      split; [|done]. by destruct (List.filter checkbox (columns data)).
    + intros Hnone. exfalso.
      assert (frame_is_empty (select_columns d (List.filter checkbox (columns data)))
              = true); [|congruence].
      apply select_columns_empty. by right.
Qed.

Lemma data_page_never_shows_empty_table_witness :
  ([Dataframe (select_columns (Frame example_columns [dark]) [py "title"]);
    Write (found_text 1)] = [WarningBox (py "No matches found")]
   ∨ ∃ table, [Dataframe (select_columns (Frame example_columns [dark]) [py "title"]);
               Write (found_text 1)]
              = [Dataframe table; Write (found_text (length (rows table)))]
              ∧ rows table ≠ [] ∧ columns table ≠ []
              ∧ columns table =
                List.filter (λ c, bool_decide (c = py "title")) (columns example_frame))
  ∧ (List.filter (λ c, bool_decide (c = py "title")) (columns example_frame) = [] →
     [Dataframe (select_columns (Frame example_columns [dark]) [py "title"]);
      Write (found_text 1)] = [WarningBox (py "No matches found")]).
Proof.
  apply (data_page_never_shows_empty_table (E := py_re) (V := Pandas3) example_frame
           (λ c, bool_decide (c = py "title")) (py "type:show")).
  by vm_compute.
Defined.

(** X17.  The search covers the unchecked columns too: on a dataset with
    distinct column labels, the number of matches announced is the same
    for any two choices of columns that each check at least one. *)
Theorem hidden_columns_are_searched `{E : RegexEngine} `{V : pandas}
  (data : frame)
  (checkbox1 checkbox2 : str → bool) (q : str)
  (Hcols : NoDup (columns data))
  (Hc1 : existsb checkbox1 (columns data) = true)
  (Hc2 : existsb checkbox2 (columns data) = true) :
  matches_shown (data_page data checkbox1 q) =
  matches_shown (data_page data checkbox2 q).
Proof.
  assert (∀ cb, existsb cb (columns data) = true →
                List.filter cb (columns data) ≠ []) as Hne.
  { intros cb (c & Hin & Hc)%existsb_exists Hnil.
    assert (c ∈ List.filter cb (columns data)) as Hf
      by (apply elem_of_bfilter; by rewrite list_elem_of_In).
    rewrite Hnil in Hf. by apply elem_of_nil in Hf. }
  rewrite !data_page_searched by done.
  destruct (if PyStr.truthy q then _ else _) as [d|e]; [|done].
  destruct (decide (rows d = [])) as [Hr|Hr].
  - rewrite !bool_decide_eq_true_2 by by left. done.
  - rewrite !bool_decide_eq_false_2;
      [cbn [matches_shown]; by rewrite !select_columns_rows|..];
      (intros [?|?]; [done|]);
      first [by apply (Hne checkbox1) | by apply (Hne checkbox2)].
Qed.

Lemma hidden_columns_are_searched_witness :
  matches_shown (data_page (E := py_re) (V := Pandas3) example_frame
                   (λ c, bool_decide (c = py "title")) (py "tarantino")) =
  matches_shown (data_page (E := py_re) (V := Pandas3) example_frame (λ _, true)
                   (py "tarantino")).
Proof.
  apply (hidden_columns_are_searched (E := py_re) (V := Pandas3) example_frame
           (λ c, bool_decide (c = py "title")) (λ _, true) (py "tarantino"));
    [apply (bool_decide_unpack _); by vm_compute | reflexivity..].
Defined.

(** * Titles per year and type *)

Section TrendsFacts.

Import Trends.
Local Open Scope Z_scope.

Implicit Types (data rows : list title) (keys : list (Z * str)) (l : list Z)
  (x y m : Z).

Lemma fold_max_spec l y :
  y ≤ fold_left Z.max l y
  ∧ Forall (λ x, x ≤ fold_left Z.max l y) l
  ∧ fold_left Z.max l y ∈ y :: l.
Proof.
  revert y. induction l as [|x l IH]; intros y; cbn [fold_left].
  - split; [lia|]. split; [constructor | left].
  - destruct (IH (Z.max y x)) as (H1 & H2 & H3). split; [lia|]. split.
    + constructor; [lia | done].
    + apply elem_of_cons in H3 as [->|H3]; [|by do 2 right].
      destruct (Z.max_spec y x) as [[_ ->]|[_ ->]]; [right; left | left].
Qed.

Lemma elem_of_years data y :
  y ∈ years data ↔ ∃ r, r ∈ data ∧ release_year r = Some y.
Proof. unfold years. apply list_elem_of_omap. Qed.

Lemma max_year_spec data m :
  max_year data = Some m →
  Forall (λ y, y ≤ m) (years data) ∧ m ∈ years data.
Proof.
  unfold max_year. destruct (years data) as [|y l]; [done|].
  intros [= <-]. destruct (fold_max_spec l y) as (H1 & H2 & H3).
  split; [by constructor | done].
Qed.

Lemma before_spec mo r :
  before mo r = true ↔ ∃ y m, release_year r = Some y ∧ mo = Some m ∧ y < m.
Proof.
  unfold before. destruct (release_year r) as [y|], mo as [m|];
    try (split; [done | by intros (? & ? & ? & ? & ?)]).
  rewrite Z.ltb_lt. split.
  - intros ?. by exists y, m.
  - by intros (? & ? & [= <-] & [= <-] & ?).
Qed.

Lemma data_filtered_spec data r :
  r ∈ data_filtered data ↔
  r ∈ data ∧ ∃ y m, release_year r = Some y ∧ max_year data = Some m ∧ y < m.
Proof. unfold data_filtered. by rewrite elem_of_bfilter, before_spec. Qed.

Lemma elem_of_grouped rows y t :
  (y, t) ∈ grouped rows ↔
  ∃ r, r ∈ rows ∧ release_year r = Some y ∧ type r = Some t.
Proof.
  unfold grouped. rewrite list_elem_of_omap. split.
  - intros (r & Hr & Hk). exists r. split; [done|].
    destruct (release_year r), (type r); by simplify_eq.
  - intros (r & Hr & Hy & Ht). exists r. split; [done|]. by rewrite Hy, Ht.
Qed.

(** Among rows that all have a year, the groups hold the rows that have
    a type. *)
Lemma grouped_of_type rows t :
  Forall (λ r, is_Some (release_year r)) rows →
  length (List.filter (λ k, bool_decide (snd k = t)) (grouped rows)) =
  length (List.filter (λ r, bool_decide (type r = Some t)) rows).
Proof.
  unfold grouped. induction 1 as [|r rows [y Hy] _ IH]; [done|].
  cbn [omap list_omap List.filter]. rewrite Hy.
  destruct (type r) as [t'|]; cbn [List.filter snd].
  - destruct (decide (t' = t)) as [->|Hne].
    + rewrite !bool_decide_eq_true_2 by done. cbn [length]. by f_equal.
    + rewrite !bool_decide_eq_false_2 by congruence. done.
  - rewrite bool_decide_eq_false_2 by done. done.
Qed.

Lemma grouped_length rows :
  Forall (λ r, is_Some (release_year r)) rows →
  length (grouped rows) =
  length (List.filter (λ r, bool_decide (is_Some (type r))) rows).
Proof.
  unfold grouped. induction 1 as [|r rows [y Hy] _ IH]; [done|].
  cbn [omap list_omap List.filter]. rewrite Hy.
  destruct (type r) as [t'|].
  - rewrite bool_decide_eq_true_2 by done. cbn [length]. by f_equal.
  - rewrite bool_decide_eq_false_2 by by intros [? ?]. done.
Qed.

Lemma data_filtered_years data :
  Forall (λ r, is_Some (release_year r)) (data_filtered data).
Proof.
  apply Forall_forall. intros r (_ & y & _ & -> & _)%data_filtered_spec. done.
Qed.

Lemma insert_unique_Z_elem x y l :
  y ∈ insert_unique Z.ltb x l ↔ y = x ∨ y ∈ l.
Proof.
  induction l as [|z l IH]; cbn.
  - rewrite list_elem_of_singleton. split; [by left | intros [?|?%elem_of_nil]; done].
  - destruct (Z.ltb_spec x z); [by rewrite elem_of_cons|].
    destruct (Z.ltb_spec z x).
    + rewrite !elem_of_cons, IH. tauto.
    + assert (x = z) as -> by lia. rewrite elem_of_cons. tauto.
Qed.

Lemma sorted_unique_Z_elem y l : y ∈ sorted_unique Z.ltb l ↔ y ∈ l.
Proof.
  induction l as [|x l IH]; cbn; [done|].
  by rewrite insert_unique_Z_elem, IH, elem_of_cons.
Qed.

Lemma insert_unique_Z_sorted x l :
  increasing l → increasing (insert_unique Z.ltb x l).
Proof.
  induction l as [|z l IH]; cbn [insert_unique increasing].
  - by repeat constructor.
  - intros [Hz Hl]. destruct (Z.ltb_spec x z).
    + cbn [increasing]. split; [|done]. constructor; [done|].
      eapply Forall_impl; [done|]. intros; cbn in *; lia.
    + destruct (Z.ltb_spec z x); [|done].
      cbn [increasing]. split; [|by apply IH]. apply Forall_forall. intros y Hy.
      apply insert_unique_Z_elem in Hy as [->|Hy]; [done|].
      rewrite Forall_forall in Hz. by apply Hz.
Qed.

Lemma sorted_unique_Z_sorted l : increasing (sorted_unique Z.ltb l).
Proof.
  induction l as [|x l IH]; cbn; [done | by apply insert_unique_Z_sorted].
Qed.

Lemma increasing_NoDup l : increasing l → NoDup l.
Proof.
  induction l as [|z l IH]; [constructor|]. intros [Hz Hl].
  constructor; [|by apply IH].
  intros Hin. rewrite Forall_forall in Hz. specialize (Hz z Hin). lia.
Qed.

Lemma sum_map_add {A} (f g : A → nat) (l : list A) :
  sum_list (map (λ e, f e + g e)%nat l) =
  (sum_list (map f l) + sum_list (map g l))%nat.
Proof. induction l as [|e l IH]; cbn; lia. Qed.

Lemma sum_indicator_out a (k : nat) l :
  a ∉ l → sum_list (map (λ y, if a =? y then k else 0%nat) l) = 0%nat.
Proof.
  induction l as [|y l IH]; [done|]. intros [Hy Hl]%not_elem_of_cons. cbn.
  destruct (Z.eqb_spec a y); [done|]. by apply IH.
Qed.

Lemma sum_indicator_in a (k : nat) l :
  NoDup l → a ∈ l → sum_list (map (λ y, if a =? y then k else 0%nat) l) = k.
Proof.
  induction 1 as [|y l Hy Hnd IH]; [by intros ?%elem_of_nil|].
  intros Hin. cbn. destruct (Z.eqb_spec a y) as [->|Hne].
  - rewrite sum_indicator_out by done. lia.
  - apply elem_of_cons in Hin as [?|Hin]; [done|]. by rewrite IH.
Qed.

(** Over distinct years that cover the groups, the group sizes of a type
    add up to the number of keys of the type. *)
Lemma group_sizes_add_up keys l t :
  NoDup l → Forall (λ k, fst k ∈ l) keys →
  sum_list (map (λ y, group_size keys y t) l) =
  length (List.filter (λ k, bool_decide (snd k = t)) keys).
Proof.
  intros Hnd Hkeys. induction Hkeys as [|k keys Hk _ IH].
  - unfold group_size. cbn. clear Hnd. induction l as [|y l IHl]; [done|]. done.
  - set (n := if bool_decide (snd k = t) then 1%nat else 0%nat).
    assert (∀ y, group_size (k :: keys) y t =
                 ((if (fst k =? y)%Z then n else 0%nat)
                  + group_size keys y t)%nat)
      as Hstep.
    { intros y. unfold group_size, n. cbn [List.filter].
      destruct (Z.eqb_spec (fst k) y), (bool_decide (snd k = t));
        cbn [andb length]; lia. }
    rewrite (map_ext _ _ Hstep), sum_map_add, sum_indicator_in, IH by done.
    unfold n. cbn [List.filter]. by destruct (bool_decide (snd k = t)).
Qed.

End TrendsFacts.

Section SortedUnique.

Import Trends.

Context {A : Type} (ltb : A → A → bool).
Hypothesis ltb_irrefl : ∀ x, ltb x x = false.
Hypothesis ltb_trans : ∀ x y z, ltb x y = true → ltb y z = true → ltb x z = true.
Hypothesis ltb_total : ∀ x y, ltb x y = false → ltb y x = false → x = y.

Lemma insert_unique_elem x y l :
  y ∈ insert_unique ltb x l ↔ y = x ∨ y ∈ l.
Proof.
  induction l as [|z l IH]; cbn.
  - rewrite list_elem_of_singleton. split; [by left | intros [?|?%elem_of_nil]; done].
  - destruct (ltb x z) eqn:Hxz; [by rewrite elem_of_cons|].
    destruct (ltb z x) eqn:Hzx.
    + rewrite !elem_of_cons, IH. tauto.
    + assert (x = z) as -> by by apply ltb_total. rewrite elem_of_cons. tauto.
Qed.

Lemma sorted_unique_elem y l : y ∈ sorted_unique ltb l ↔ y ∈ l.
Proof.
  induction l as [|x l IH]; cbn; [done|].
  by rewrite insert_unique_elem, IH, elem_of_cons.
Qed.

Lemma insert_unique_increasing x l :
  increasing_by ltb l → increasing_by ltb (insert_unique ltb x l).
Proof.
  induction l as [|z l IH]; cbn [insert_unique increasing_by].
  - by repeat constructor.
  - intros [Hz Hl]. destruct (ltb x z) eqn:Hxz.
    + cbn [increasing_by]. split; [|done]. constructor; [done|].
      eapply Forall_impl; [done|]. intros y Hy. by eapply ltb_trans.
    + destruct (ltb z x) eqn:Hzx; [|done].
      cbn [increasing_by]. split; [|by apply IH]. apply Forall_forall. intros y Hy.
      apply insert_unique_elem in Hy as [->|Hy]; [done|].
      rewrite Forall_forall in Hz. by apply Hz.
Qed.

Lemma sorted_unique_increasing l : increasing_by ltb (sorted_unique ltb l).
Proof.
  induction l as [|x l IH]; cbn; [done | by apply insert_unique_increasing].
Qed.

Lemma increasing_by_NoDup l : increasing_by ltb l → NoDup l.
Proof.
  induction l as [|z l IH]; [constructor|]. intros [Hz Hl].
  constructor; [|by apply IH].
  intros Hin. rewrite Forall_forall in Hz. specialize (Hz z Hin).
  by rewrite ltb_irrefl in Hz.
Qed.

Lemma sorted_unique_NoDup l : NoDup (sorted_unique ltb l).
Proof. apply increasing_by_NoDup, sorted_unique_increasing. Qed.

End SortedUnique.

Section StringOrder.

Import Trends.
Implicit Types (s t u : str).

Lemma str_ltb_irrefl s : str_ltb s s = false.
Proof.
  induction s as [|a s IH]; [done|]. cbn. by rewrite N.ltb_irrefl, N.eqb_refl, IH.
Qed.

Lemma str_ltb_trans s t u :
  str_ltb s t = true → str_ltb t u = true → str_ltb s u = true.
Proof.
  revert t u. induction s as [|a s IH]; intros [|b t] [|c u]; cbn; try done.
  rewrite !orb_true_iff, !andb_true_iff, !N.ltb_lt, !N.eqb_eq.
  intros [?|[? ?]] [?|[? ?]]; try (left; lia). right. split; [lia|]. by eapply IH.
Qed.

Lemma str_ltb_total s t : str_ltb s t = false → str_ltb t s = false → s = t.
Proof.
  revert t. induction s as [|a s IH]; intros [|b t]; cbn; try done.
  rewrite !orb_false_iff, !andb_false_iff, !N.ltb_ge, !N.eqb_neq.
  intros [? Hst] [? Hts].
  assert (N_of_ascii a = N_of_ascii b) as Hab by lia.
  assert (a = b) as ->.
  { by rewrite <-(ascii_N_embedding a), <-(ascii_N_embedding b), Hab. }
  f_equal. apply IH.
  - by destruct Hst.
  - by destruct Hts.
Qed.

End StringOrder.

Section TrendsChart.

Import Trends.
Local Open Scope Z_scope.

Implicit Types (keys : list (Z * str)).

Lemma keys_years_covered keys :
  Forall (λ k, fst k ∈ sorted_unique Z.ltb (map fst keys)) keys.
Proof.
  apply Forall_forall. intros k Hk. apply sorted_unique_Z_elem.
  by apply list_elem_of_fmap_2.
Qed.

(** The sizes of the types add up to the number of keys. *)
Lemma type_sizes_add_up keys (cols : list str) :
  NoDup cols → Forall (λ k, snd k ∈ cols) keys →
  sum_list (map (λ t, length (List.filter (λ k, bool_decide (snd k = t)) keys)) cols)
  = length keys.
Proof.
  intros Hnd Hkeys. induction Hkeys as [|k keys Hk _ IH].
  - cbn. clear Hnd. induction cols as [|t cols IHc]; [done|]. done.
  - assert (∀ a (n : nat) (l : list str), NoDup l → a ∈ l →
      sum_list (map (λ t, if bool_decide (a = t) then n else 0%nat) l) = n) as Hone.
    { intros a n l Hl. induction Hl as [|t l Ht Hl IHl]; [by intros ?%elem_of_nil|].
      intros Hin. cbn. case_bool_decide as Heq.
      - subst t. assert (sum_list (map (λ t, if bool_decide (a = t) then n else 0%nat) l)
                         = 0%nat) as ->; [|lia].
        clear IHl Hin Hl. induction l as [|u l IHu]; [done|].
        apply not_elem_of_cons in Ht as [? ?]. cbn.
        rewrite bool_decide_eq_false_2 by done. by apply IHu.
      - apply elem_of_cons in Hin as [?|Hin]; [done|]. by rewrite IHl. }
    rewrite (map_ext _ (λ t, ((if bool_decide (snd k = t) then 1 else 0)
               + length (List.filter (λ k, bool_decide (snd k = t)) keys))%nat)).
    + rewrite sum_map_add, Hone, IH by done. done.
    + intros t. cbn [List.filter]. by destruct (bool_decide (snd k = t)).
Qed.

Lemma line_counts_add_up keys t :
  sum_list (map (λ y, group_size keys y t) (sorted_unique Z.ltb (map fst keys))) =
  length (List.filter (λ k, bool_decide (snd k = t)) keys).
Proof.
  apply group_sizes_add_up.
  - apply increasing_NoDup, sorted_unique_Z_sorted.
  - apply keys_years_covered.
Qed.

End TrendsChart.

(** X18.  The chart leaves the latest release year out: the years on the
    axis of every line are exactly the release years before the latest
    one of the titles that have a type, each once and in increasing
    order, and every line has one point per year.  A year all of whose
    titles lack a type is not on the axis. *)
Theorem chart_leaves_out_latest_year (data : list Trends.title)
  (l : Trends.line) (Hline : l ∈ Trends.yearly_lines data) :
  Trends.increasing (Trends.xs l)
  ∧ (∀ y, y ∈ Trends.xs l ↔
          ∃ r m, r ∈ data ∧ Trends.release_year r = Some y
                 ∧ is_Some (Trends.type r)
                 ∧ Trends.max_year data = Some m ∧ (y < m)%Z)
  ∧ length (Trends.ys l) = length (Trends.xs l).
Proof.
  unfold Trends.yearly_lines in Hline. cbn zeta in Hline.
  apply list_elem_of_fmap in Hline as (t & -> & _). cbn [Trends.xs Trends.ys].
  split; [apply sorted_unique_Z_sorted|]. split; [|by rewrite length_map].
  intros y. rewrite sorted_unique_Z_elem, list_elem_of_fmap. split.
  - intros ([y' t'] & -> & (r & Hr & Hy & Ht)%elem_of_grouped). cbn [fst].
    apply data_filtered_spec in Hr as (Hr & y2 & m & Hy2 & Hm & Hlt).
    exists r, m. rewrite Hy in Hy2. injection Hy2 as <-.
    by rewrite Ht.
  - intros (r & m & Hr & Hy & [t' Ht] & Hm & Hlt). exists (y, t'). split; [done|].
    apply elem_of_grouped. exists r. split; [|done].
    apply data_filtered_spec. split; [done|]. by exists y, m.
Qed.

Lemma chart_leaves_out_latest_year_witness :
  Trends.increasing [2019; 2020]%Z
  ∧ (∀ y, y ∈ [2019; 2020]%Z ↔
          ∃ r m, r ∈ example_titles ∧ Trends.release_year r = Some y
                 ∧ is_Some (Trends.type r)
                 ∧ Trends.max_year example_titles = Some m ∧ (y < m)%Z)
  ∧ length [1; 0] = length [2019; 2020]%Z.
Proof.
  apply (chart_leaves_out_latest_year example_titles
           (Trends.Line (py "Movie") [2019; 2020]%Z [1; 0])).
  vm_compute. left.
Defined.

(** X19.  The counts of a line add up: the points of the line of a type
    sum to the number of titles of that type released before the latest
    year. *)
Theorem chart_line_counts_add_up (data : list Trends.title)
  (l : Trends.line) (Hline : l ∈ Trends.yearly_lines data) :
  sum_list (Trends.ys l) =
  length (List.filter (λ r, bool_decide (Trends.type r = Some (Trends.label l)))
                      (Trends.data_filtered data)).
Proof.
  unfold Trends.yearly_lines in Hline. cbn zeta in Hline.
  apply list_elem_of_fmap in Hline as (t & -> & _). cbn [Trends.ys Trends.label].
  rewrite line_counts_add_up. apply grouped_of_type, data_filtered_years.
Qed.

Lemma chart_line_counts_add_up_witness :
  sum_list [1; 1] =
  length (List.filter (λ r, bool_decide (Trends.type r = Some (py "TV Show")))
                      (Trends.data_filtered example_titles)).
Proof.
  apply (chart_line_counts_add_up example_titles
           (Trends.Line (py "TV Show") [2019; 2020]%Z [1; 1])).
  vm_compute. right; left.
Defined.

(** X20.  No title that has a type is lost or counted twice: all the
    points of all the lines together sum to the number of the titles
    released before the latest year that have a type, and there is one
    line per type of those titles.  A title whose type is missing is in
    no group and on no line. *)
Theorem chart_counts_every_title_once (data : list Trends.title) :
  sum_list (map (λ l, sum_list (Trends.ys l)) (Trends.yearly_lines data)) =
    length (List.filter (λ r, bool_decide (is_Some (Trends.type r)))
                        (Trends.data_filtered data))
  ∧ NoDup (map Trends.label (Trends.yearly_lines data))
  ∧ ∀ t, t ∈ map Trends.label (Trends.yearly_lines data) ↔
         Some t ∈ map Trends.type (Trends.data_filtered data).
Proof.
  unfold Trends.yearly_lines. cbn zeta.
  rewrite !map_map. cbn [Trends.ys Trends.label]. rewrite map_id.
  set (keys := Trends.grouped (Trends.data_filtered data)).
  split; [|split].
  - rewrite (map_ext _ (λ t, length (List.filter
               (λ k, bool_decide (snd k = t)) keys))) by apply line_counts_add_up.
    rewrite type_sizes_add_up.
    + apply grouped_length, data_filtered_years.
    + apply sorted_unique_NoDup;
        [apply str_ltb_irrefl | apply str_ltb_trans | apply str_ltb_total].
    + apply Forall_forall. intros k Hk.
      apply sorted_unique_elem; [apply str_ltb_total|].
      by apply list_elem_of_fmap_2.
  - apply sorted_unique_NoDup;
      [apply str_ltb_irrefl | apply str_ltb_trans | apply str_ltb_total].
  - intros t. rewrite sorted_unique_elem by apply str_ltb_total.
    rewrite !list_elem_of_fmap. split.
    + intros ([y t'] & -> & (r & Hr & Hy & Ht)%elem_of_grouped). by exists r.
    + intros (r & Ht & Hr). exists (default 0%Z (Trends.release_year r), t).
      split; [done|]. apply elem_of_grouped. exists r. split; [done|].
      split; [|done].
      pose proof (data_filtered_years data) as Hy. rewrite Forall_forall in Hy.
      by destruct (Hy r Hr) as [y ->].
Qed.

(** The chart of the example: the year 2018, whose only title has no
    type, and the latest year 2021 are not on the axis. *)
Lemma example_chart : Trends.yearly_lines example_titles = example_lines.
Proof. reflexivity. Qed.

(** * Quoted phrases and repeated keys *)

Section Phrases.

Implicit Types (k v p q : str).

Lemma dict_get_set (d : dict) k v : dict_get (dict_set d k v) k = Some v.
Proof.
  induction d as [|[k' v'] d IH]; cbn.
  - by rewrite decide_True.
  - destruct (decide (k' = k)) as [->|Hne]; cbn.
    + by rewrite decide_True.
    + by rewrite decide_False.
Qed.

(** The last iteration of the classification loop. *)
Lemma classify_loop_last pre t :
  classify_loop (pre ++ [t]) =
  snd (classify_body (pre ++ [t]) (length pre)
         (fold_left (λ st i, snd (classify_body (pre ++ [t]) i st))
                    (seq 0 (length pre)) parse_init)).
Proof.
  unfold classify_loop. rewrite length_app. cbn [length].
  rewrite Nat.add_1_r, seq_S, fold_left_app. done.
Qed.

Lemma classify_last_filter pre k v :
  colon_char ∉ k →
  ∃ cs, column_searches (classify_loop (pre ++ [k ++ colon_char :: v])) =
        dict_set cs (PyStr.lower (PyStr.strip k)) (PyStr.strip v).
Proof.
  intros Hk. rewrite classify_loop_last. unfold classify_body at 1.
  rewrite nth_middle, contains_colon_middle, split_first_first_colon by done.
  cbn [fst snd]. rewrite length_app. cbn [length].
  rewrite (proj2 (Nat.ltb_ge _ _)) by lia.
  eexists. by destruct (negb (PyStr.truthy (PyStr.strip v))).
Qed.

Lemma split_terms_phrase p :
  quote_char ∉ p → p ≠ [] → split_terms (quote_char :: p ++ [quote_char]) = [p].
Proof.
  intros Hp Hne.
  apply (split_terms_quoted [] p []); [apply not_elem_of_nil.. | done | done].
Qed.

End Phrases.

(** X21.  The last filter for a key wins: whatever comes before it, a
    query that ends in the token [k:v] maps the key to the value of that
    token. *)
Theorem last_filter_for_a_key_wins (q0 k v : str)
  (Hquotes : in_quotes (scan_from scan_init q0) = false)
  (Hkq : PyStr.contains_char quote_char k = false)
  (Hks : PyStr.contains_char space_char k = false)
  (Hkc : PyStr.contains_char colon_char k = false)
  (Hvq : PyStr.contains_char quote_char v = false)
  (Hvs : PyStr.contains_char space_char v = false) :
  dict_get (snd (parse_search_terms (q0 ++ space_char :: k ++ colon_char :: v)))
           (PyStr.lower (PyStr.strip k))
  = Some (PyStr.strip v).
Proof.
  apply contains_char_false in Hkq, Hks, Hkc, Hvq, Hvs.
  unfold parse_search_terms. cbn [snd].
  rewrite split_terms_concat by done. rewrite (split_terms_single (k ++ _)).
  - destruct (classify_last_filter (split_terms q0) k v Hkc) as [cs ->].
    apply dict_get_set.
  - rewrite elem_of_app, elem_of_cons. intros [?|[?|?]]; done.
  - rewrite elem_of_app, elem_of_cons. intros [?|[?|?]]; done.
  - by destruct k.
Qed.

Lemma last_filter_for_a_key_wins_witness :
  dict_get (snd (parse_search_terms
                   (py "type:movie love" ++ space_char :: py "TYPE" ++ colon_char :: py "show")))
           (PyStr.lower (PyStr.strip (py "TYPE")))
  = Some (PyStr.strip (py "show")).
Proof.
  apply (last_filter_for_a_key_wins (py "type:movie love") (py "TYPE") (py "show"));
    reflexivity.
Defined.

(** X22.  A quoted phrase is one free-text term, spaces included: the
    query made of a phrase in double quotes filters by the phrase as a
    whole. *)
Theorem quoted_phrase_is_one_term `{E : RegexEngine} `{V : pandas} (d : frame)
  (p : str)
  (Hpq : PyStr.contains_char quote_char p = false)
  (Hpc : PyStr.contains_char colon_char p = false)
  (Hne : p ≠ []) :
  parse_search_terms (quote_char :: p ++ [quote_char]) = ([p], [])
  ∧ apply_search_filters d (quote_char :: p ++ [quote_char]) = term_filter_step d p.
Proof.
  apply contains_char_false in Hpq.
  assert (parse_search_terms (quote_char :: p ++ [quote_char]) = ([p], [])) as Hparse.
  { rewrite parse_colon_free, split_terms_phrase; [done..|].
    apply contains_char_false. apply contains_char_false in Hpc.
    rewrite elem_of_cons, elem_of_app, list_elem_of_singleton.
    intros [?|[?|?]]; done. }
  split; [done|]. unfold apply_search_filters.
  rewrite (not_blank_with quote_char) by (done || left).
  cbn [negb]. rewrite Hparse. unfold apply_parsed. cbn [for_each bind].
  by destruct (term_filter_step d p).
Qed.

Lemma quoted_phrase_is_one_term_witness :
  parse_search_terms (quote_char :: py "pulp fiction" ++ [quote_char])
  = ([py "pulp fiction"], [])
  ∧ apply_search_filters (E := py_re) (V := Pandas3) example_frame
      (quote_char :: py "pulp fiction" ++ [quote_char])
    = term_filter_step (E := py_re) (V := Pandas3) example_frame (py "pulp fiction").
Proof.
  apply (quoted_phrase_is_one_term (E := py_re) (V := Pandas3) example_frame
           (py "pulp fiction"));
    [reflexivity | reflexivity | discriminate].
Defined.

(** X23.  A quoted value directly after the colon belongs to the filter:
    the token [k:] and the phrase are one token, the value is the phrase,
    spaces and colons included, and no free-text term is left over. *)
Theorem quoted_filter_value (k p : str)
  (Hkq : PyStr.contains_char quote_char k = false)
  (Hks : PyStr.contains_char space_char k = false)
  (Hkc : PyStr.contains_char colon_char k = false)
  (Hpq : PyStr.contains_char quote_char p = false) :
  parse_search_terms (k ++ colon_char :: quote_char :: p ++ [quote_char]) =
  ([], [(PyStr.lower (PyStr.strip k), PyStr.strip p)]).
Proof.
  apply contains_char_false in Hkq, Hks, Hkc, Hpq.
  unfold parse_search_terms.
  replace (k ++ colon_char :: quote_char :: p ++ [quote_char])
    with ((k ++ [colon_char]) ++ quote_char :: p ++ quote_char :: [])
    by by rewrite <-app_assoc.
  rewrite split_terms_quoted.
  - change (split_terms []) with (@nil str). rewrite <-app_assoc. cbn [app].
    unfold classify_loop. cbn [length seq fold_left]. unfold classify_body.
    cbn [nth]. rewrite contains_colon_middle, split_first_first_colon by done.
    cbn [fst snd length]. change (0 + 1 <? 1) with false.
    by destruct (negb (PyStr.truthy (PyStr.strip p))).
  - rewrite elem_of_app, list_elem_of_singleton. by intros [?|?].
  - rewrite elem_of_app, list_elem_of_singleton. by intros [?|?].
  - done.
  - by destruct k.
Qed.

Lemma quoted_filter_value_witness :
  parse_search_terms
    (py "Director" ++ colon_char :: quote_char :: py "Quentin Tarantino" ++ [quote_char]) =
  ([], [(PyStr.lower (PyStr.strip (py "Director")), PyStr.strip (py "Quentin Tarantino"))]).
Proof.
  apply (quoted_filter_value (py "Director") (py "Quentin Tarantino")); reflexivity.
Defined.
